(** * Hex map editor: coordinate engine and editing state machine

    A shallow embedding of the map editor component (the TypeScript
    [HexMapEditor] and, for the coordinate transform, the older JSX
    variant bundled next to [App.jsx]).

    Conventions of the embedding:
    - JavaScript numbers that hold tile data ([q], [r], [tier], mouse
      coordinates) are integers and are modelled as [Z]; [%] on them is
      the truncating remainder [Z.rem], whose sign follows the dividend.
    - Pixel arithmetic is modelled over the real numbers [R]
      ([Math.sqrt] as [sqrt], [SQRT3] as [sqrt 3]); rounding of doubles
      is not modelled.
    - [hexSize] is a JSON decimal and is kept as a rational [Q] in the
      document; it enters pixel arithmetic through [Q2R].
    - React state and refs are fields of one record; every handler is a
      function from the state (and its event) to the next state.
    - [Set<string>] is a [gset string]. *)

From Stdlib Require Import ZArith Reals Lra Lia List QArith Qreals Qminmax Ascii.
From Stdlib Require Lqa.
From stdpp Require Import base gmap sets strings list.
Import ListNotations.

#[local] Set Warnings "-clear-no-such-hyp".

#[local] Open Scope Z_scope.

(* ====================================================================== *)
(** * Types and constants *)
(* ====================================================================== *)

Inductive Orientation := Pointy | Flat.

Module Hex.
Record t := mk {
  q : Z;
  r : Z;
  id : string;
  asset : string;
  terrain : string;
  tier : Z
}.
End Hex.

Module SpawnPoint.
Record t := mk { q : Z; r : Z }.
End SpawnPoint.

(** An optional key ([spawnPoints?], [worldTree?]) is [None] when the key
    is absent (or [undefined], which [JSON.stringify] leaves out). *)
Module MapData.
Record t := mk {
  hexSize : Q;
  orientation : Orientation;
  map : list Hex.t;
  spawnPoints : option (list SpawnPoint.t);
  worldTree : option SpawnPoint.t
}.
End MapData.

Definition SQRT3 : R := sqrt 3.

(* ====================================================================== *)
(** * Geometry helpers *)
(* ====================================================================== *)

Module Geometry.
#[local] Open Scope R_scope.

(** [axialToPixel] of the TypeScript editor; the result is the pair
    [(x, y)].  The stagger term reads the original [r]. *)
Definition axialToPixel (q r : Z) (size : R) (orientation : Orientation)
    (rect stagger mirror : bool) (maxR : Z) : R * R :=
  let rr := if mirror then (maxR - r)%Z else r in
  match orientation with
  | Pointy =>
      let baseX := size * SQRT3 * (if rect then IZR q else IZR q + IZR rr / 2) in
      let y := size * 1.5 * IZR rr in
      let x := if stagger then baseX + (IZR (Z.rem r 2) * SQRT3 * size) / 2 else baseX in
      (x, y)
  | Flat =>
      let baseY := size * SQRT3 * (if rect then IZR rr else IZR rr + IZR q / 2) in
      let x := size * 1.5 * IZR q in
      let y := if stagger then baseY + (IZR (Z.rem q 2) * SQRT3 * size) / 2 else baseY in
      (x, y)
  end.

(** [axialToPixel] of the JSX editor variant: the same function, except
    that the pointy stagger term reads the mirrored row [rr]. *)
Definition axialToPixel_jsx (q r : Z) (size : R) (orientation : Orientation)
    (rect stagger mirror : bool) (maxR : Z) : R * R :=
  let rr := if mirror then (maxR - r)%Z else r in
  match orientation with
  | Pointy =>
      let baseX := size * SQRT3 * (if rect then IZR q else IZR q + IZR rr / 2) in
      let y := size * 1.5 * IZR rr in
      let x := if stagger then baseX + (IZR (Z.rem rr 2) * SQRT3 * size) / 2 else baseX in
      (x, y)
  | Flat =>
      let baseY := size * SQRT3 * (if rect then IZR rr else IZR rr + IZR q / 2) in
      let x := size * 1.5 * IZR q in
      let y := if stagger then baseY + (IZR (Z.rem q 2) * SQRT3 * size) / 2 else baseY in
      (x, y)
  end.

(** The signature shared by the two variants. *)
Definition Transform : Type :=
  Z -> Z -> R -> Orientation -> bool -> bool -> bool -> Z -> R * R.

(** What enabling [stagger] contributes: the result with [stagger = true]
    minus the result with [stagger = false], component by component. *)
Definition staggerOffset (f : Transform) (q r : Z) (size : R)
    (orientation : Orientation) (rect mirror : bool) (maxR : Z) : R * R :=
  let on := f q r size orientation rect true mirror maxR in
  let off := f q r size orientation rect false mirror maxR in
  (fst on - fst off, snd on - snd off).

(** ** Hit testing *)

(** Layout flags of the component ([rect], [stagger], [mirror]). *)
Record Layout := mkLayout { rect : bool; stagger : bool; mirror : bool }.

(** [Math.max(...data.map.map(h => h.r))].  On an empty map JavaScript
    yields [-Infinity]; the value is only ever passed along with a tile of
    the map, so the empty case is never read and is given as [0]. *)
Definition maxR (m : list Hex.t) : Z :=
  match m with
  | [] => 0%Z
  | h :: t => fold_left Z.max (List.map Hex.r t) (Hex.r h)
  end.

Definition sizePx (d : MapData.t) : R := Q2R (MapData.hexSize d) * 100.

(** Pixel centre of a tile of document [d] under layout [L]. *)
Definition centre (L : Layout) (d : MapData.t) (hex : Hex.t) : R * R :=
  axialToPixel (Hex.q hex) (Hex.r hex) (sizePx d) (MapData.orientation d)
    (rect L) (stagger L) (mirror L) (maxR (MapData.map d)).

(** [Math.sqrt((svgX - x) ** 2 + (svgY - y) ** 2)]. *)
Definition distTo (svgX svgY : R) (c : R * R) : R :=
  sqrt ((svgX - fst c) ^ 2 + (svgY - snd c) ^ 2).

(** [closestDist] starts at [Infinity]. *)
Inductive Dist := Infinity | Finite (d : R).

Definition Rltb (a b : R) : bool := if Rlt_dec a b then true else false.

Definition ltDist (a : R) (b : Dist) : bool :=
  match b with Infinity => true | Finite b => Rltb a b end.

(** One iteration of the [for (const hex of data.map)] loop; the
    accumulator is [(closest, closestDist)]. *)
Definition hitStep (L : Layout) (d : MapData.t) (svgX svgY : R)
    (acc : option Hex.t * Dist) (hex : Hex.t) : option Hex.t * Dist :=
  let threshold := sizePx d * 0.9 in
  let dist := distTo svgX svgY (centre L d hex) in
  if Rltb dist threshold && ltDist dist (snd acc)
  then (Some hex, Finite dist)
  else acc.

Definition hitLoop (L : Layout) (d : MapData.t) (svgX svgY : R)
    (tiles : list Hex.t) : option Hex.t * Dist :=
  fold_left (hitStep L d svgX svgY) tiles (None, Infinity).

Definition findHexAtPoint (L : Layout) (data : option MapData.t)
    (svgX svgY : R) : option Hex.t :=
  match data with
  | None => None
  | Some d => fst (hitLoop L d svgX svgY (MapData.map d))
  end.

End Geometry.

(* ====================================================================== *)
(** * The editor component *)
(* ====================================================================== *)

Module Editor.

Inductive EditMode := Terrain | Spawn | Goal.

(** The component's [useState] cells and [useRef] boxes.  Zoom ([scale])
    and the save handlers are left out.  Three fields stand for effects on
    the outside world: [alerts] collects the [alert(...)] calls (newest
    first), [fileInputClicks] counts [fileRef.current?.click()], and
    [paintLog] is a ghost record of the ids for which the brush called
    [setData] (newest first). *)
Record State := mkState {
  data : option MapData.t;
  selected : option Hex.t;
  selectedMultiple : gset string;
  editMode : EditMode;
  spawnPoints : list SpawnPoint.t;
  worldTree : option SpawnPoint.t;
  brushEnabled : bool;
  brushTerrain : string;
  brushTier : Z;
  isBrushPainting : bool;
  paintedInStroke : gset string;
  offset : Z * Z;
  isPanning : bool;
  isDragSelecting : bool;
  start : Z * Z;
  lastFileHandle : option string;
  lastFileName : string;
  alerts : list string;
  fileInputClicks : nat;
  paintLog : list string
}.

(** One setter per field: [set_f v s] is [s] with field [f] replaced by
    [v]. *)
Definition set_data (v : option MapData.t) (s : State) : State :=
  mkState v (selected s) (selectedMultiple s) (editMode s) (spawnPoints s)
    (worldTree s) (brushEnabled s) (brushTerrain s) (brushTier s)
    (isBrushPainting s) (paintedInStroke s) (offset s) (isPanning s)
    (isDragSelecting s) (start s) (lastFileHandle s) (lastFileName s)
    (alerts s) (fileInputClicks s) (paintLog s).
Definition set_selected (v : option Hex.t) (s : State) : State :=
  mkState (data s) v (selectedMultiple s) (editMode s) (spawnPoints s)
    (worldTree s) (brushEnabled s) (brushTerrain s) (brushTier s)
    (isBrushPainting s) (paintedInStroke s) (offset s) (isPanning s)
    (isDragSelecting s) (start s) (lastFileHandle s) (lastFileName s)
    (alerts s) (fileInputClicks s) (paintLog s).
Definition set_selectedMultiple (v : gset string) (s : State) : State :=
  mkState (data s) (selected s) v (editMode s) (spawnPoints s) (worldTree s)
    (brushEnabled s) (brushTerrain s) (brushTier s) (isBrushPainting s)
    (paintedInStroke s) (offset s) (isPanning s) (isDragSelecting s)
    (start s) (lastFileHandle s) (lastFileName s) (alerts s)
    (fileInputClicks s) (paintLog s).
Definition set_editMode (v : EditMode) (s : State) : State :=
  mkState (data s) (selected s) (selectedMultiple s) v (spawnPoints s)
    (worldTree s) (brushEnabled s) (brushTerrain s) (brushTier s)
    (isBrushPainting s) (paintedInStroke s) (offset s) (isPanning s)
    (isDragSelecting s) (start s) (lastFileHandle s) (lastFileName s)
    (alerts s) (fileInputClicks s) (paintLog s).
Definition set_spawnPoints (v : list SpawnPoint.t) (s : State) : State :=
  mkState (data s) (selected s) (selectedMultiple s) (editMode s) v
    (worldTree s) (brushEnabled s) (brushTerrain s) (brushTier s)
    (isBrushPainting s) (paintedInStroke s) (offset s) (isPanning s)
    (isDragSelecting s) (start s) (lastFileHandle s) (lastFileName s)
    (alerts s) (fileInputClicks s) (paintLog s).
Definition set_worldTree (v : option SpawnPoint.t) (s : State) : State :=
  mkState (data s) (selected s) (selectedMultiple s) (editMode s)
    (spawnPoints s) v (brushEnabled s) (brushTerrain s) (brushTier s)
    (isBrushPainting s) (paintedInStroke s) (offset s) (isPanning s)
    (isDragSelecting s) (start s) (lastFileHandle s) (lastFileName s)
    (alerts s) (fileInputClicks s) (paintLog s).
Definition set_brushEnabled (v : bool) (s : State) : State :=
  mkState (data s) (selected s) (selectedMultiple s) (editMode s)
    (spawnPoints s) (worldTree s) v (brushTerrain s) (brushTier s)
    (isBrushPainting s) (paintedInStroke s) (offset s) (isPanning s)
    (isDragSelecting s) (start s) (lastFileHandle s) (lastFileName s)
    (alerts s) (fileInputClicks s) (paintLog s).
Definition set_brushTerrain (v : string) (s : State) : State :=
  mkState (data s) (selected s) (selectedMultiple s) (editMode s)
    (spawnPoints s) (worldTree s) (brushEnabled s) v (brushTier s)
    (isBrushPainting s) (paintedInStroke s) (offset s) (isPanning s)
    (isDragSelecting s) (start s) (lastFileHandle s) (lastFileName s)
    (alerts s) (fileInputClicks s) (paintLog s).
Definition set_brushTier (v : Z) (s : State) : State :=
  mkState (data s) (selected s) (selectedMultiple s) (editMode s)
    (spawnPoints s) (worldTree s) (brushEnabled s) (brushTerrain s) v
    (isBrushPainting s) (paintedInStroke s) (offset s) (isPanning s)
    (isDragSelecting s) (start s) (lastFileHandle s) (lastFileName s)
    (alerts s) (fileInputClicks s) (paintLog s).
Definition set_isBrushPainting (v : bool) (s : State) : State :=
  mkState (data s) (selected s) (selectedMultiple s) (editMode s)
    (spawnPoints s) (worldTree s) (brushEnabled s) (brushTerrain s)
    (brushTier s) v (paintedInStroke s) (offset s) (isPanning s)
    (isDragSelecting s) (start s) (lastFileHandle s) (lastFileName s)
    (alerts s) (fileInputClicks s) (paintLog s).
Definition set_paintedInStroke (v : gset string) (s : State) : State :=
  mkState (data s) (selected s) (selectedMultiple s) (editMode s)
    (spawnPoints s) (worldTree s) (brushEnabled s) (brushTerrain s)
    (brushTier s) (isBrushPainting s) v (offset s) (isPanning s)
    (isDragSelecting s) (start s) (lastFileHandle s) (lastFileName s)
    (alerts s) (fileInputClicks s) (paintLog s).
Definition set_offset (v : Z * Z) (s : State) : State :=
  mkState (data s) (selected s) (selectedMultiple s) (editMode s)
    (spawnPoints s) (worldTree s) (brushEnabled s) (brushTerrain s)
    (brushTier s) (isBrushPainting s) (paintedInStroke s) v (isPanning s)
    (isDragSelecting s) (start s) (lastFileHandle s) (lastFileName s)
    (alerts s) (fileInputClicks s) (paintLog s).
Definition set_isPanning (v : bool) (s : State) : State :=
  mkState (data s) (selected s) (selectedMultiple s) (editMode s)
    (spawnPoints s) (worldTree s) (brushEnabled s) (brushTerrain s)
    (brushTier s) (isBrushPainting s) (paintedInStroke s) (offset s) v
    (isDragSelecting s) (start s) (lastFileHandle s) (lastFileName s)
    (alerts s) (fileInputClicks s) (paintLog s).
Definition set_isDragSelecting (v : bool) (s : State) : State :=
  mkState (data s) (selected s) (selectedMultiple s) (editMode s)
    (spawnPoints s) (worldTree s) (brushEnabled s) (brushTerrain s)
    (brushTier s) (isBrushPainting s) (paintedInStroke s) (offset s)
    (isPanning s) v (start s) (lastFileHandle s) (lastFileName s) (alerts s)
    (fileInputClicks s) (paintLog s).
Definition set_start (v : Z * Z) (s : State) : State :=
  mkState (data s) (selected s) (selectedMultiple s) (editMode s)
    (spawnPoints s) (worldTree s) (brushEnabled s) (brushTerrain s)
    (brushTier s) (isBrushPainting s) (paintedInStroke s) (offset s)
    (isPanning s) (isDragSelecting s) v (lastFileHandle s) (lastFileName s)
    (alerts s) (fileInputClicks s) (paintLog s).
Definition set_lastFileHandle (v : option string) (s : State) : State :=
  mkState (data s) (selected s) (selectedMultiple s) (editMode s)
    (spawnPoints s) (worldTree s) (brushEnabled s) (brushTerrain s)
    (brushTier s) (isBrushPainting s) (paintedInStroke s) (offset s)
    (isPanning s) (isDragSelecting s) (start s) v (lastFileName s) (alerts s)
    (fileInputClicks s) (paintLog s).
Definition set_lastFileName (v : string) (s : State) : State :=
  mkState (data s) (selected s) (selectedMultiple s) (editMode s)
    (spawnPoints s) (worldTree s) (brushEnabled s) (brushTerrain s)
    (brushTier s) (isBrushPainting s) (paintedInStroke s) (offset s)
    (isPanning s) (isDragSelecting s) (start s) (lastFileHandle s) v
    (alerts s) (fileInputClicks s) (paintLog s).
Definition set_alerts (v : list string) (s : State) : State :=
  mkState (data s) (selected s) (selectedMultiple s) (editMode s)
    (spawnPoints s) (worldTree s) (brushEnabled s) (brushTerrain s)
    (brushTier s) (isBrushPainting s) (paintedInStroke s) (offset s)
    (isPanning s) (isDragSelecting s) (start s) (lastFileHandle s)
    (lastFileName s) v (fileInputClicks s) (paintLog s).
Definition set_fileInputClicks (v : nat) (s : State) : State :=
  mkState (data s) (selected s) (selectedMultiple s) (editMode s)
    (spawnPoints s) (worldTree s) (brushEnabled s) (brushTerrain s)
    (brushTier s) (isBrushPainting s) (paintedInStroke s) (offset s)
    (isPanning s) (isDragSelecting s) (start s) (lastFileHandle s)
    (lastFileName s) (alerts s) v (paintLog s).
Definition set_paintLog (v : list string) (s : State) : State :=
  mkState (data s) (selected s) (selectedMultiple s) (editMode s)
    (spawnPoints s) (worldTree s) (brushEnabled s) (brushTerrain s)
    (brushTier s) (isBrushPainting s) (paintedInStroke s) (offset s)
    (isPanning s) (isDragSelecting s) (start s) (lastFileHandle s)
    (lastFileName s) (alerts s) (fileInputClicks s) v.

(** The component as first rendered, before the default map arrives. *)
Definition initial : State :=
  mkState None None ∅ Terrain [] None false "grass" 0 false ∅ (0, 0)
          false false (0, 0) None "map.json" [] 0%nat [].

(** ** File IO *)

(** A file chosen by the user: its name and what [JSON.parse] makes of its
    text ([None] when it throws). *)
Record File := mkFile { name : string; json : option MapData.t }.

(** The five state writes shared by both import paths. *)
Definition loadParsed (parsed : MapData.t) (s : State) : State :=
  set_editMode Terrain
    (set_selected None
      (set_worldTree (MapData.worldTree parsed)
        (set_spawnPoints (default [] (MapData.spawnPoints parsed))
          (set_data (Some parsed) s)))).

(** [handleImport]: the change event of the hidden file input;
    [e.target.files?.[0]] is the argument. *)
Definition handleImport (s : State) (file : option File) : State :=
  match file with
  | None => s
  | Some file =>
      let s := set_lastFileHandle None (set_lastFileName (name file) s) in
      match json file with
      | Some parsed => loadParsed parsed s
      | None => set_alerts ("Invalid JSON"%string :: alerts s) s
      end
  end.

(** What the File System Access picker does when [handleImportClick]
    calls it. *)
Inductive Picker :=
  | NoPicker                 (* 'showOpenFilePicker' is not in window *)
  | PickerAbort              (* it throws an AbortError *)
  | PickerError              (* it throws anything else *)
  | Picked (file : File).    (* it yields a handle to [file] *)

Definition clickFileInput (s : State) : State :=
  set_fileInputClicks (S (fileInputClicks s)) s.

Definition handleImportClick (s : State) (p : Picker) : State :=
  match p with
  | NoPicker => clickFileInput s
  | PickerAbort => s
  | PickerError => clickFileInput s
  | Picked file =>
      let s := set_lastFileName (name file) (set_lastFileHandle (Some (name file)) s) in
      match json file with
      | Some parsed => loadParsed parsed s
      | None => clickFileInput s      (* caught, not an AbortError: falls through *)
      end
  end.

(** [getExportData]; a key set to [undefined] is an absent key. *)
Definition getExportData (s : State) : option MapData.t :=
  match data s with
  | None => None
  | Some d =>
      Some (MapData.mk (MapData.hexSize d) (MapData.orientation d) (MapData.map d)
              (if (0 <? length (spawnPoints s))%nat then Some (spawnPoints s) else None)
              (worldTree s))
  end.

(** ** Field updates *)

(** [{ ...mapHex, [k]: v }] for the keys the editor writes. *)
Inductive HexUpdate :=
  | SetTerrain (v : string)
  | SetTier (v : Z)
  | SetAsset (v : string).

Definition applyUpdate (u : HexUpdate) (h : Hex.t) : Hex.t :=
  match u with
  | SetTerrain v => Hex.mk (Hex.q h) (Hex.r h) (Hex.id h) (Hex.asset h) v (Hex.tier h)
  | SetTier v => Hex.mk (Hex.q h) (Hex.r h) (Hex.id h) (Hex.asset h) (Hex.terrain h) v
  | SetAsset v => Hex.mk (Hex.q h) (Hex.r h) (Hex.id h) v (Hex.terrain h) (Hex.tier h)
  end.

Definition withMap (d : MapData.t) (m : list Hex.t) : MapData.t :=
  MapData.mk (MapData.hexSize d) (MapData.orientation d) m
             (MapData.spawnPoints d) (MapData.worldTree d).

Definition updateHex (u : HexUpdate) (s : State) : State :=
  match data s with
  | None => s
  | Some d =>
      if (0 <? size (selectedMultiple s))%nat then
        let s1 :=
          set_data (Some (withMap d (List.map (fun mapHex =>
            if bool_decide (Hex.id mapHex ∈ selectedMultiple s)
            then applyUpdate u mapHex else mapHex) (MapData.map d)))) s in
        match selected s with
        | Some sel =>
            if bool_decide (Hex.id sel ∈ selectedMultiple s)
            then set_selected (Some (applyUpdate u sel)) s1
            else s1
        | None => s1
        end
      else
        match selected s with
        | Some sel =>
            set_selected (Some (applyUpdate u sel))
              (set_data (Some (withMap d (List.map (fun mapHex =>
                 if String.eqb (Hex.id mapHex) (Hex.id sel)
                 then applyUpdate u mapHex else mapHex) (MapData.map d)))) s)
        | None => s
        end
  end.

(** ** Tier controls *)

Definition isTerrain (m : EditMode) : bool :=
  match m with Terrain => true | _ => false end.

(** The canvas wheel listener; [deltaY] is the event's [deltaY]. *)
Definition handleWheel (s : State) (deltaY : Z) : State :=
  let hasSelection :=
    match selected s with Some _ => true | None => false end
    || (0 <? size (selectedMultiple s))%nat in
  if hasSelection && isTerrain (editMode s) then
    let delta := if 0 <? deltaY then -1 else 1 in
    let baseTier := match selected s with Some sel => Hex.tier sel | None => 0 end in
    let newTier := Z.max 0 (Z.min 3 (baseTier + delta)) in
    updateHex (SetTier newTier) s
  else s.

(** The tier widget of the sidebar is rendered only while a tile is
    selected in terrain mode; its three handlers read [selected.tier]. *)
Definition withTierWidget (s : State) (k : Hex.t -> State) : State :=
  match selected s with
  | Some sel => if isTerrain (editMode s) then k sel else s
  | None => s
  end.

Definition tierWidgetWheel (s : State) (deltaY : Z) : State :=
  withTierWidget s (fun sel =>
    let delta := if 0 <? deltaY then -1 else 1 in
    let newTier := Z.max 0 (Z.min 3 (Hex.tier sel + delta)) in
    updateHex (SetTier newTier) s).

Definition tierMinusClick (s : State) : State :=
  withTierWidget s (fun sel => updateHex (SetTier (Z.max 0 (Hex.tier sel - 1))) s).

Definition tierPlusClick (s : State) : State :=
  withTierWidget s (fun sel => updateHex (SetTier (Z.min 3 (Hex.tier sel + 1))) s).

(** ** Markers *)

Definition atCoord (q r : Z) (sp : SpawnPoint.t) : bool :=
  (SpawnPoint.q sp =? q) && (SpawnPoint.r sp =? r).

Definition toggleSpawnPoint (s : State) (q r : Z) : State :=
  let prev := spawnPoints s in
  set_spawnPoints
    (match List.find (atCoord q r) prev with
     | Some _ => List.filter (fun sp => negb (atCoord q r sp)) prev
     | None => prev ++ [SpawnPoint.mk q r]
     end) s.

Definition setWorldTreeAt (s : State) (q r : Z) : State :=
  match worldTree s with
  | Some wt =>
      if atCoord q r wt then set_worldTree None s
      else set_worldTree (Some (SpawnPoint.mk q r)) s
  | None => set_worldTree (Some (SpawnPoint.mk q r)) s
  end.

(** ** Pointer events *)

(** A mouse event.  [mouseToSvg] reads the DOM and [findHexAtPoint] then
    resolves the point to a tile of [data.map] or to nothing; [target] is
    the index of that tile in [data.map]. *)
Record MouseEvent := mkMouse {
  button : Z;
  ctrlKey : bool;
  metaKey : bool;
  clientX : Z;
  clientY : Z;
  target : option nat
}.

Definition hexUnderPointer (s : State) (e : MouseEvent) : option Hex.t :=
  match data s, target e with
  | Some d, Some i => MapData.map d !! i
  | _, _ => None
  end.

(** ** Selection *)

Definition handleHexClick (s : State) (hex : Hex.t) (e : MouseEvent) : State :=
  match editMode s with
  | Spawn => toggleSpawnPoint s (Hex.q hex) (Hex.r hex)
  | Goal => setWorldTreeAt s (Hex.q hex) (Hex.r hex)
  | Terrain =>
      if ctrlKey e || metaKey e then
        let prev := selectedMultiple s in
        let newSet :=
          match selected s with
          | Some sel =>
              if (size prev =? 0)%nat && negb (String.eqb (Hex.id sel) (Hex.id hex))
              then {[Hex.id sel]} ∪ prev else prev
          | None => prev
          end in
        let newSet :=
          if bool_decide (Hex.id hex ∈ newSet)
          then newSet ∖ {[Hex.id hex]} else {[Hex.id hex]} ∪ newSet in
        set_selected (Some hex) (set_selectedMultiple newSet s)
      else
        set_selected (Some hex) (set_selectedMultiple ∅ s)
  end.

(** ** Brush *)

Definition matchesBrush (s : State) (hex : Hex.t) : bool :=
  String.eqb (Hex.terrain hex) (brushTerrain s) && (Hex.tier hex =? brushTier s).

Definition brushed (s : State) (h : Hex.t) : Hex.t :=
  Hex.mk (Hex.q h) (Hex.r h) (Hex.id h) (Hex.asset h) (brushTerrain s) (brushTier s).

Definition paintHexWithBrush (s : State) (hex : Hex.t) : State :=
  match data s with
  | None => s
  | Some d =>
      if bool_decide (Hex.id hex ∈ paintedInStroke s) then s
      else if matchesBrush s hex then s
      else
        set_paintLog (Hex.id hex :: paintLog s)
          (set_data (Some (withMap d (List.map (fun h =>
             if String.eqb (Hex.id h) (Hex.id hex) then brushed s h else h)
             (MapData.map d))))
            (set_paintedInStroke ({[Hex.id hex]} ∪ paintedInStroke s) s))
  end.

Definition paintUnderPointer (s : State) (e : MouseEvent) : State :=
  match hexUnderPointer s e with
  | Some hex => paintHexWithBrush s hex
  | None => s
  end.

Definition onMouseDown (s : State) (e : MouseEvent) : State :=
  if negb (button e =? 0) then s
  else if brushEnabled s && isTerrain (editMode s) then
    paintUnderPointer
      (set_paintedInStroke ∅
        (set_isDragSelecting false (set_isPanning false (set_isBrushPainting true s))))
      e
  else if (ctrlKey e || metaKey e) && isTerrain (editMode s) then
    set_isBrushPainting false (set_isPanning false (set_isDragSelecting true s))
  else
    set_start (clientX e - fst (offset s), clientY e - snd (offset s))
      (set_isBrushPainting false (set_isDragSelecting false (set_isPanning true s))).

(** The drag-select step of [onMouseMove]: add the tile under the pointer
    unless it is already in the multi-set, and make it the focus. *)
Definition dragSelectUnderPointer (s : State) (e : MouseEvent) : State :=
  match hexUnderPointer s e with
  | Some hex =>
      set_selected (Some hex)
        (set_selectedMultiple
          (if bool_decide (Hex.id hex ∈ selectedMultiple s)
           then selectedMultiple s
           else {[Hex.id hex]} ∪ selectedMultiple s) s)
  | None => s
  end.

(** The pan step of [onMouseMove]. *)
Definition panTo (s : State) (e : MouseEvent) : State :=
  set_offset (clientX e - fst (start s), clientY e - snd (start s)) s.

Definition onMouseMove (s : State) (e : MouseEvent) : State :=
  if isBrushPainting s && brushEnabled s then paintUnderPointer s e
  else if isDragSelecting s && (ctrlKey e || metaKey e) then dragSelectUnderPointer s e
  else if negb (isPanning s) then s
  else panTo s e.

Definition onMouseUp (s : State) : State :=
  set_paintedInStroke ∅
    (set_isBrushPainting false (set_isDragSelecting false (set_isPanning false s))).

(** A stroke up to, but not including, its pointer-up. *)
Definition strokeMoves (s : State) (down : MouseEvent) (moves : list MouseEvent) : State :=
  fold_left onMouseMove moves (onMouseDown s down).

Definition stroke (s : State) (down : MouseEvent) (moves : list MouseEvent) : State :=
  onMouseUp (strokeMoves s down moves).

(** Any interleaving of the three pointer handlers ([onMouseLeave] is
    [onMouseUp]). *)
Inductive PointerEvent :=
  | PointerDown (e : MouseEvent)
  | PointerMove (e : MouseEvent)
  | PointerUp.

Definition handle (s : State) (ev : PointerEvent) : State :=
  match ev with
  | PointerDown e => onMouseDown s e
  | PointerMove e => onMouseMove s e
  | PointerUp => onMouseUp s
  end.

Definition run (s : State) (evs : list PointerEvent) : State :=
  fold_left handle evs s.

(** ** Measures used in the statements *)

(** How many of the three stroke-mode refs are set. *)
Definition activeModes (s : State) : nat :=
  (Nat.b2n (isPanning s) + Nat.b2n (isBrushPainting s) + Nat.b2n (isDragSelecting s))%nat.

(** How often the brush has rewritten the tiles of id [i]. *)
Definition mutations (s : State) (i : string) : nat :=
  count_occ String.string_dec (paintLog s) i.

(** Every tile of id [i] already carries the brush's terrain and tier. *)
Definition allMatchBrush (s : State) (i : string) : Prop :=
  forall d h, data s = Some d -> In h (MapData.map d) -> Hex.id h = i ->
              matchesBrush s h = true.

(** Every tile whose id is in the painted record carries the brush's
    terrain and tier. *)
Definition paintedMatchBrush (s : State) : Prop :=
  forall d h, data s = Some d -> In h (MapData.map d) ->
              Hex.id h ∈ paintedInStroke s -> matchesBrush s h = true.

(** Since [base], the brush has rewritten exactly the ids of the painted
    record, once each. *)
Definition paintedOnce (base s : State) : Prop :=
  forall i, mutations s i
            = (mutations base i + if bool_decide (i ∈ paintedInStroke s) then 1 else 0)%nat.

End Editor.

(* ====================================================================== *)
(** * Sample documents and states *)
(* ====================================================================== *)

Module Sample.
Import Editor.

Definition tile (q r : Z) (id terrain : string) (tier : Z) : Hex.t :=
  Hex.mk q r id "" terrain tier.

Definition hexA : Hex.t := tile 0 0 "hex_0_0" "grass" 1.
Definition hexB : Hex.t := tile 1 0 "hex_1_0" "water" 0.

(** Two tiles, [(0,0)] grass/1 and [(1,0)] water/0. *)
Definition doc : MapData.t :=
  MapData.mk (8 # 10) Pointy [hexA; hexB] None None.

(** The editor after [doc] has been loaded. *)
Definition loaded : State := loadParsed doc initial.

(** The same with the brush switched on and set to water/0. *)
Definition brushing : State :=
  set_brushTier 0 (set_brushTerrain "water" (set_brushEnabled true loaded)).

(** A document whose only tile carries the out-of-range tier 10, with that
    tile selected. *)
Definition tall : Hex.t := tile 0 0 "hex_0_0" "mountain" 10.
Definition tallSelected : State :=
  set_selected (Some tall)
    (loadParsed (MapData.mk (8 # 10) Pointy [tall] None None) initial).

(** A document whose only tile carries the out-of-range tier -5, with
    that tile selected. *)
Definition deep : Hex.t := tile 0 0 "hex_0_0" "water" (-5).
Definition deepSelected : State :=
  set_selected (Some deep)
    (loadParsed (MapData.mk (8 # 10) Pointy [deep] None None) initial).

(** Left button at the given tile index, with or without Ctrl. *)
Definition at_ (ctrl : bool) (i : nat) : MouseEvent :=
  mkMouse 0 ctrl false 0 0 (Some i).

End Sample.

(* ====================================================================== *)
(** * What edits leave alone *)
(* ====================================================================== *)

(** The identity of a tile: its coordinates and id. *)
Definition coordsOf (h : Hex.t) : Z * Z * string := (Hex.q h, Hex.r h, Hex.id h).

(** A document with the editable fields of its tiles taken out: size,
    orientation, the tiles' identities in order, and the stored marker
    keys. *)
Definition frame (d : MapData.t)
    : Q * Orientation * list (Z * Z * string)
      * option (list SpawnPoint.t) * option SpawnPoint.t :=
  (MapData.hexSize d, MapData.orientation d, List.map coordsOf (MapData.map d),
   MapData.spawnPoints d, MapData.worldTree d).

(** The tile under the pointer of [e], if any, already carries the
    brush's terrain and tier. *)
Definition pointerOnBrushed (s : Editor.State) (e : Editor.MouseEvent) : Prop :=
  forall hex, Editor.hexUnderPointer s e = Some hex -> Editor.matchesBrush s hex = true.

(* ====================================================================== *)
(** * Rendering helpers *)
(* ====================================================================== *)

Module Render.
Import Editor.

(** ** Tile outline *)

(** One vertex of [hexPoints]: index [i] of [Array.from({ length: 6 })]. *)
Definition hexVertex (cx cy size : R) (orientation : Orientation) (i : nat) : R * R :=
  let offsetDeg := match orientation with Pointy => 30%R | Flat => 0%R end in
  let ang := ((offsetDeg + 60 * INR i) * PI / 180)%R in
  ((cx + size * cos ang)%R, (cy + size * sin ang)%R).

(** [hexPoints] as the list of its six vertices; the source prints each as
    ["x,y"] and joins them with spaces, which is not modelled. *)
Definition hexPoints (cx cy size : R) (orientation : Orientation) : list (R * R) :=
  List.map (hexVertex cx cy size orientation) (seq 0 6).

(** ** Viewport bounds *)

(** [Math.max(...xs)] of a non-empty list. *)
Definition maxOf (x : R) (xs : list R) : R := fold_left Rmax xs x.

(** [bounds] as [(w, h)].  For an empty map [Math.max()] is [-Infinity],
    given here as [None]. *)
Definition bounds (L : Geometry.Layout) (data : option MapData.t) : option (R * R) :=
  match data with
  | None => Some (800%R, 600%R)
  | Some d =>
      match List.map (Geometry.centre L d) (MapData.map d) with
      | [] => None
      | c :: coords =>
          Some ((maxOf (fst c) (List.map fst coords) + Geometry.sizePx d * 2)%R,
                (maxOf (snd c) (List.map snd coords) + Geometry.sizePx d * 2)%R)
      end
  end.

(** ** Shading *)


(** [[minH, maxH]]: the least and greatest tier of the map.  On an empty
    map the source yields [[Infinity, -Infinity]], which no tile ever
    reads; it is given as [(0, 0)]. *)
Definition tierRange (data : option MapData.t) : Z * Z :=
  match data with
  | None => (0, 1)
  | Some d =>
      match List.map Hex.tier (MapData.map d) with
      | [] => (0, 0)
      | t :: ts => (fold_left Z.min ts t, fold_left Z.max ts t)
      end
  end.














(** ** Marker queries *)

Definition isSpawnPoint (s : State) (q r : Z) : bool :=
  existsb (atCoord q r) (spawnPoints s).

Definition isWorldTree (s : State) (q r : Z) : bool :=
  match worldTree s with
  | Some wt => atCoord q r wt
  | None => false
  end.

End Render.

(* ====================================================================== *)
(** * Zoom *)
(* ====================================================================== *)

(** The [scale] cell and the handlers that write it; each is a state
    updater [s => ...] on the scale alone. *)
Module View.
#[local] Open Scope Q_scope.

(** The [-] button: [Math.max(0.3, s * 0.8)]. *)
Definition zoomOut (s : Q) : Q := Qmax (3 # 10) (s * (8 # 10)).

(** The [+] button: [Math.min(4, s * 1.25)]. *)
Definition zoomIn (s : Q) : Q := Qmin 4 (s * (125 # 100)).

(** Reset View. *)
Definition resetScale (s : Q) : Q := 1.

(** The wheel handler of the JSX variant:
    [Math.min(4, Math.max(0.3, s * zoom))] with [zoom] 0.9 or 1.1. *)
Definition wheelZoom (deltaY : Z) (s : Q) : Q :=
  let zoom := if (0 <? deltaY)%Z then 9 # 10 else 11 # 10 in
  Qmin 4 (Qmax (3 # 10) (s * zoom)).

Inductive ZoomOp := ZoomOut | ZoomIn | ResetScale | WheelZoom (deltaY : Z).

Definition applyZoom (s : Q) (op : ZoomOp) : Q :=
  match op with
  | ZoomOut => zoomOut s
  | ZoomIn => zoomIn s
  | ResetScale => resetScale s
  | WheelZoom deltaY => wheelZoom deltaY s
  end.

End View.

(* ====================================================================== *)
(** * The stamp brush of the JSX variant *)
(* ====================================================================== *)

(** The JSX editor keeps a [height] and a [texture] per tile and paints by
    click with a brush that applies a chosen subset of fields.  Only the
    tile list of its document is modelled; [hexSize] and [orientation]
    are carried over unchanged by the spread. *)
Module Jsx.

Record Tile := mkTile {
  q : Z;
  r : Z;
  id : string;
  asset : string;
  terrain : string;
  height : Z;
  texture : string
}.

Record PaintBrush := mkBrush {
  brushTerrain : string;
  brushHeight : Z;
  brushTexture : string;
  brushAsset : string;
  applyTerrain : bool;
  applyHeight : bool;
  applyTexture : bool;
  applyAsset : bool
}.

(** [updatedHex]: a copy of the target with the enabled fields replaced. *)
Definition updatedHex (b : PaintBrush) (targetHex : Tile) : Tile :=
  mkTile (q targetHex) (r targetHex) (id targetHex)
    (if applyAsset b then brushAsset b else asset targetHex)
    (if applyTerrain b then brushTerrain b else terrain targetHex)
    (if applyHeight b then brushHeight b else height targetHex)
    (if applyTexture b then brushTexture b else texture targetHex).

(** [applyPaintBrush] on the tile list of the loaded document. *)
Definition applyPaintBrush (b : PaintBrush) (map : list Tile) (targetHex : Tile)
    : list Tile :=
  List.map (fun mapHex =>
    if String.eqb (id mapHex) (id targetHex) then updatedHex b targetHex else mapHex) map.

(** [a.id === b.id]. *)
Definition Tile_eqb_id (a b : Tile) : bool := String.eqb (id a) (id b).

End Jsx.

(* ====================================================================== *)
(** * Properties of the coordinate transform *)
(* ====================================================================== *)

Section TransformFacts.
Import Geometry.
#[local] Open Scope R_scope.

Lemma SQRT3_pos : 0 < SQRT3.
Proof. unfold SQRT3. apply sqrt_lt_R0. lra. Qed.





(** Closed forms of the stagger contribution of both variants. *)
Lemma staggerOffset_ts_pointy q r size rect mirror maxR :
  staggerOffset axialToPixel q r size Pointy rect mirror maxR
  = (IZR (Z.rem r 2) * SQRT3 * size / 2, 0).
Proof. unfold staggerOffset, axialToPixel. cbn. f_equal; ring. Qed.

Lemma staggerOffset_ts_flat q r size rect mirror maxR :
  staggerOffset axialToPixel q r size Flat rect mirror maxR
  = (0, IZR (Z.rem q 2) * SQRT3 * size / 2).
Proof. unfold staggerOffset, axialToPixel. cbn. f_equal; ring. Qed.

Lemma staggerOffset_jsx_pointy q r size rect mirror maxR :
  staggerOffset axialToPixel_jsx q r size Pointy rect mirror maxR
  = (IZR (Z.rem (if mirror then maxR - r else r) 2) * SQRT3 * size / 2, 0).
Proof. unfold staggerOffset, axialToPixel_jsx. cbn. f_equal; ring. Qed.


(** In the TypeScript editor the stagger contribution is the same with and
    without mirroring, for every tile, size, orientation, layout mode and
    [maxR]: it is the half-width term of the unmirrored [r] (pointy) or
    [q] (flat). *)
Theorem stagger_offset_mirror_independent
    (q r : Z) (size : R) (o : Orientation) (rect : bool) (maxR : Z) :
  staggerOffset axialToPixel q r size o rect true maxR
  = staggerOffset axialToPixel q r size o rect false maxR.
Proof.
  destruct o.
  - now rewrite !staggerOffset_ts_pointy.
  - now rewrite !staggerOffset_ts_flat.
Qed.

(** C1 (mirror/stagger independence), on the JSX variant of
    [axialToPixel]: for the tile [(0, 0)] of a pointy rectangular map with
    [maxR = 1] and tile size 80 (the variant's built-in map), enabling
    stagger shifts the mirrored tile by [SQRT3 * 80 / 2] and the unmirrored
    tile by nothing, so the stagger offset there depends on mirroring. *)
Theorem jsx_stagger_offset_depends_on_mirror :
  staggerOffset axialToPixel_jsx 0 0 80 Pointy true true 1 = (SQRT3 * 80 / 2, 0)
  /\ staggerOffset axialToPixel_jsx 0 0 80 Pointy true false 1 = (0, 0)
  /\ staggerOffset axialToPixel_jsx 0 0 80 Pointy true true 1
     <> staggerOffset axialToPixel_jsx 0 0 80 Pointy true false 1.
Proof.
  rewrite !staggerOffset_jsx_pointy.
  change (Z.rem (1 - 0) 2) with 1%Z. change (Z.rem 0 2) with 0%Z.
  assert (E1 : 1 * SQRT3 * 80 / 2 = SQRT3 * 80 / 2) by lra.
  assert (E0 : 0 * SQRT3 * 80 / 2 = 0) by lra.
  rewrite E1, E0. repeat split.
  intros H. apply (f_equal fst) in H. cbn in H.
  pose proof SQRT3_pos. lra.
Qed.



End TransformFacts.

(* ====================================================================== *)
(** * Properties of the hit tester *)
(* ====================================================================== *)

Section HitTestFacts.
Import Geometry.
#[local] Open Scope R_scope.

Variables (L : Layout) (d : MapData.t) (svgX svgY : R).

Let dist (h : Hex.t) : R := distTo svgX svgY (centre L d h).
Let threshold : R := sizePx d * 0.9.

Lemma Rltb_true a b : Rltb a b = true <-> a < b.
Proof. unfold Rltb. destruct (Rlt_dec a b); split; intros; (congruence || lra). Qed.

Lemma Rltb_false a b : Rltb a b = false <-> b <= a.
Proof. unfold Rltb. destruct (Rlt_dec a b); split; intros; (congruence || lra). Qed.

Lemma hitLoop_snoc tiles h :
  hitLoop L d svgX svgY (tiles ++ [h])
  = hitStep L d svgX svgY (hitLoop L d svgX svgY tiles) h.
Proof. unfold hitLoop. now rewrite fold_left_app. Qed.

(** What the loop has established after scanning [tiles]. *)
Lemma hitLoop_spec tiles :
  match hitLoop L d svgX svgY tiles with
  | (None, cd) =>
      cd = Infinity /\ forall h, In h tiles -> threshold <= dist h
  | (Some hex, cd) =>
      cd = Finite (dist hex) /\ dist hex < threshold
      /\ exists before after,
           tiles = before ++ hex :: after
           /\ (forall h, In h before -> dist hex < dist h)
           /\ (forall h, In h after -> dist hex <= dist h)
  end.
Proof.
  induction tiles as [|h tiles IH] using rev_ind.
  - cbn. split; [reflexivity | intros h []].
  - rewrite hitLoop_snoc.
    destruct (hitLoop L d svgX svgY tiles) as [[hex|] cd]; unfold hitStep; cbn [snd].
    + destruct IH as (-> & Hthr & before & after & -> & Hb & Ha).
      fold (dist h). fold threshold. cbn [ltDist].
      destruct (Rltb (dist h) threshold) eqn:E1;
        [destruct (Rltb (dist h) (dist hex)) eqn:E2|]; cbn [andb].
      * apply Rltb_true in E1, E2.
        split; [reflexivity|]. split; [assumption|].
        exists (before ++ hex :: after), []. split; [reflexivity|].
        split; [|intros ? []].
        intros h' Hin. apply in_app_or in Hin as [Hin|[<-|Hin]].
        -- specialize (Hb _ Hin). lra.
        -- assumption.
        -- specialize (Ha _ Hin). lra.
      * apply Rltb_false in E2.
        split; [reflexivity|]. split; [assumption|].
        exists before, (after ++ [h]). split; [now rewrite <- app_assoc|].
        split; [assumption|].
        intros h' Hin. apply in_app_or in Hin as [Hin|[<-|[]]]; auto.
      * apply Rltb_false in E1.
        split; [reflexivity|]. split; [assumption|].
        exists before, (after ++ [h]). split; [now rewrite <- app_assoc|].
        split; [assumption|].
        intros h' Hin. apply in_app_or in Hin as [Hin|[<-|[]]]; auto. lra.
    + destruct IH as (-> & Hall).
      fold (dist h). fold threshold. cbn [ltDist].
      destruct (Rltb (dist h) threshold) eqn:E1; cbn [andb].
      * apply Rltb_true in E1.
        split; [reflexivity|]. split; [assumption|].
        exists tiles, []. split; [reflexivity|]. split; [|intros ? []].
        intros h' Hin. specialize (Hall _ Hin). lra.
      * apply Rltb_false in E1.
        split; [reflexivity|].
        intros h' Hin. apply in_app_or in Hin as [Hin|[<-|[]]]; auto.
Qed.


End HitTestFacts.


(* ====================================================================== *)
(** * Properties of the editor: documents, tiers and markers *)
(* ====================================================================== *)

Section DocumentFacts.
Import Editor.

(** C3: a document that is imported and exported straight away comes back
    with its [hexSize], [orientation] and [map]; [spawnPoints] comes back
    when it was a non-empty list and is absent otherwise, and [worldTree]
    comes back exactly as it was (absent when absent).  Both import paths
    give the same export. *)
Theorem import_export_roundtrip (s : State) (fname : string) (doc : MapData.t) :
  let viaInput := getExportData (handleImport s (Some (mkFile fname (Some doc)))) in
  let viaPicker := getExportData (handleImportClick s (Picked (mkFile fname (Some doc)))) in
  viaPicker = viaInput
  /\ exists out,
       viaInput = Some out
       /\ MapData.hexSize out = MapData.hexSize doc
       /\ MapData.orientation out = MapData.orientation doc
       /\ MapData.map out = MapData.map doc
       /\ MapData.spawnPoints out
          = match MapData.spawnPoints doc with
            | Some (sp :: rest) => Some (sp :: rest)
            | Some [] | None => None
            end
       /\ MapData.worldTree out = MapData.worldTree doc.
Proof.
  cbv zeta. split; [reflexivity|].
  eexists. split; [reflexivity|]. cbn.
  repeat split.
  destruct (MapData.spawnPoints doc) as [[|sp rest]|]; reflexivity.
Qed.

End DocumentFacts.

Section TierFacts.
Import Editor.

(** The tiers held by the document of a state. *)
Lemma tallSelected_tiers :
  option_map (fun d => List.map Hex.tier (MapData.map d)) (data Sample.tallSelected)
  = Some [10].
Proof. reflexivity. Qed.

(** C5 (tier clamp), on the widget's buttons: with the only tile at the
    imported tier 10, the [-] button writes 9, and with the tile at the
    imported tier -5 the [+] button writes -4; both results lie outside
    [0, 3]. *)
Theorem tier_buttons_clamp_one_side_only :
  option_map (fun d => List.map Hex.tier (MapData.map d))
             (data (tierMinusClick Sample.tallSelected)) = Some [9]
  /\ option_map Hex.tier (selected (tierMinusClick Sample.tallSelected)) = Some 9
  /\ option_map (fun d => List.map Hex.tier (MapData.map d))
                (data (tierPlusClick Sample.deepSelected)) = Some [-4]
  /\ option_map Hex.tier (selected (tierPlusClick Sample.deepSelected)) = Some (-4).
Proof. repeat split. Qed.

End TierFacts.

Section TierRangeFacts.
Import Editor.

(** A tier update leaves every tile either as it was or at the new tier. *)
Lemma updateHex_tier (s : State) (v : Z) (d' : MapData.t) (h' : Hex.t) :
  data (updateHex (SetTier v) s) = Some d' ->
  In h' (MapData.map d') ->
  (exists d, data s = Some d /\ In h' (MapData.map d)) \/ Hex.tier h' = v.
Proof.
  unfold updateHex. intros Hd Hin.
  destruct (data s) as [d|] eqn:Ed; [|rewrite Ed in Hd; discriminate].
  assert (Hmap : forall (p : Hex.t -> bool),
            In h' (List.map (fun mapHex => if p mapHex then applyUpdate (SetTier v) mapHex
                                           else mapHex) (MapData.map d)) ->
            In h' (MapData.map d) \/ Hex.tier h' = v).
  { intros p Hp. apply in_map_iff in Hp as (h & <- & Hh).
    destruct (p h); [right; reflexivity | left; assumption]. }
  destruct (0 <? size (selectedMultiple s))%nat.
  - assert (Hd1 : Some (withMap d (List.map (fun mapHex =>
              if bool_decide (Hex.id mapHex ∈ selectedMultiple s)
              then applyUpdate (SetTier v) mapHex else mapHex) (MapData.map d))) = Some d').
    { destruct (selected s) as [sel|]; [destruct (bool_decide _)|]; exact Hd. }
    injection Hd1 as <-. cbn in Hin.
    destruct (Hmap _ Hin); eauto.
  - destruct (selected s) as [sel|].
    + cbn in Hd. injection Hd as <-. cbn in Hin. destruct (Hmap _ Hin); eauto.
    + rewrite Ed in Hd. injection Hd as <-. eauto.
Qed.

(** The two wheel paths write only tiers within [0, 3]: after the canvas
    wheel or the widget's inline wheel, every tile is either untouched or
    has its tier in range. *)
Theorem wheel_tier_in_range (s : State) (deltaY : Z) (d' : MapData.t) (h' : Hex.t) :
  data (handleWheel s deltaY) = Some d' \/ data (tierWidgetWheel s deltaY) = Some d' ->
  In h' (MapData.map d') ->
  (exists d, data s = Some d /\ In h' (MapData.map d)) \/ 0 <= Hex.tier h' <= 3.
Proof.
  intros [Hd|Hd] Hin.
  - unfold handleWheel in Hd.
    destruct (_ && _).
    + destruct (updateHex_tier _ _ _ _ Hd Hin) as [? | ->]; [left; assumption | right; lia].
    + eauto.
  - unfold tierWidgetWheel, withTierWidget in Hd.
    destruct (selected s) as [sel|]; [destruct (isTerrain _)|]; eauto.
    destruct (updateHex_tier _ _ _ _ Hd Hin) as [? | ->]; [left; assumption | right; lia].
Qed.

Lemma wheel_tier_in_range_witness :
  (exists d, data Sample.tallSelected = Some d /\ In (Sample.tile 0 0 "hex_0_0" "mountain" 3) (MapData.map d))
  \/ 0 <= Hex.tier (Sample.tile 0 0 "hex_0_0" "mountain" 3) <= 3.
Proof.
  eapply (wheel_tier_in_range Sample.tallSelected 5).
  - left. reflexivity.
  - left. reflexivity.
Defined.

End TierRangeFacts.

(* ====================================================================== *)
(** * Properties of the marker registry *)
(* ====================================================================== *)

Section MarkerFacts.
Import Editor.

Lemma SpawnPoint_eq_dec (a b : SpawnPoint.t) : {a = b} + {a <> b}.
Proof. decide equality; apply Z.eq_dec. Defined.

Lemma atCoord_true q r sp : atCoord q r sp = true <-> sp = SpawnPoint.mk q r.
Proof.
  unfold atCoord. destruct sp as [q' r']. cbn.
  rewrite andb_true_iff, !Z.eqb_eq. split.
  - intros [-> ->]. reflexivity.
  - intros [= -> ->]. split; reflexivity.
Qed.

Lemma atCoord_false q r sp : atCoord q r sp = false <-> sp <> SpawnPoint.mk q r.
Proof.
  rewrite <- atCoord_true. destruct (atCoord q r sp); split; congruence.
Qed.

Lemma find_atCoord_none q r l :
  List.find (atCoord q r) l = None <-> ~ In (SpawnPoint.mk q r) l.
Proof.
  split.
  - intros Hn Hin. apply (find_none _ _ Hn) in Hin.
    apply atCoord_false in Hin. congruence.
  - intros Hn. destruct (List.find (atCoord q r) l) as [sp|] eqn:E; [|reflexivity].
    apply find_some in E as [Hin Hat]. apply atCoord_true in Hat. subst. contradiction.
Qed.

Lemma filter_not_atCoord q r l :
  ~ In (SpawnPoint.mk q r) (List.filter (fun sp => negb (atCoord q r sp)) l).
Proof.
  intros Hin. apply filter_In in Hin as [_ H].
  assert (atCoord q r (SpawnPoint.mk q r) = true) by now apply atCoord_true.
  rewrite H0 in H. discriminate.
Qed.

(** Membership in the spawn list after one toggle. *)
Lemma toggleSpawnPoint_In s q r sp :
  In sp (spawnPoints (toggleSpawnPoint s q r))
  <-> (sp <> SpawnPoint.mk q r /\ In sp (spawnPoints s))
      \/ (sp = SpawnPoint.mk q r /\ ~ In sp (spawnPoints s)).
Proof.
  unfold toggleSpawnPoint. cbn.
  destruct (List.find (atCoord q r) (spawnPoints s)) as [x|] eqn:E.
  - apply find_some in E as [Hx Hat]. apply atCoord_true in Hat. subst x.
    rewrite filter_In, negb_true_iff, atCoord_false. split.
    + intros [? ?]. left. split; assumption.
    + intros [[? ?]|[-> Hn]]; [split; assumption | contradiction].
  - apply find_atCoord_none in E. rewrite in_app_iff. cbn. split.
    + intros [Hin|[<-|[]]].
      * left. split; [|assumption]. intros ->. contradiction.
      * right. split; [reflexivity | assumption].
    + intros [[? ?]|[-> ?]]; [left; assumption | right; left; reflexivity].
Qed.

(** C6 as the code has it: toggling the spawn point at [(q, r)] twice
    gives back the original membership of the spawn list; setting the goal
    at [(q, r)] twice leaves no goal unless the goal was at [(q, r)] to
    begin with, in which case it is at [(q, r)] again; and setting the goal
    at [(q, r)] while it sits elsewhere moves it to [(q, r)]. *)
Theorem marker_toggle_laws (s : State) (q r : Z) :
  (forall sp, In sp (spawnPoints (toggleSpawnPoint (toggleSpawnPoint s q r) q r))
              <-> In sp (spawnPoints s))
  /\ (worldTree s <> Some (SpawnPoint.mk q r) ->
      worldTree (setWorldTreeAt (setWorldTreeAt s q r) q r) = None)
  /\ (worldTree s = Some (SpawnPoint.mk q r) ->
      worldTree (setWorldTreeAt s q r) = None
      /\ worldTree (setWorldTreeAt (setWorldTreeAt s q r) q r) = Some (SpawnPoint.mk q r))
  /\ (forall wt, worldTree s = Some wt -> wt <> SpawnPoint.mk q r ->
      worldTree (setWorldTreeAt s q r) = Some (SpawnPoint.mk q r)).
Proof.
  assert (Hself : atCoord q r (SpawnPoint.mk q r) = true) by now apply atCoord_true.
  split; [|split; [|split]].
  - intros sp. rewrite !toggleSpawnPoint_In.
    destruct (in_dec SpawnPoint_eq_dec sp (spawnPoints s)),
             (SpawnPoint_eq_dec sp (SpawnPoint.mk q r)); tauto.
  - intros Hne. unfold setWorldTreeAt at 2.
    destruct (worldTree s) as [wt|] eqn:E.
    + destruct (atCoord q r wt) eqn:Hat.
      * apply atCoord_true in Hat. congruence.
      * unfold setWorldTreeAt. cbn. rewrite Hself. reflexivity.
    + unfold setWorldTreeAt. cbn. rewrite Hself. reflexivity.
  - intros E. unfold setWorldTreeAt. rewrite E, Hself. cbn. split; reflexivity.
  - intros wt E Hne. apply atCoord_false in Hne.
    unfold setWorldTreeAt. rewrite E, Hne. reflexivity.
Qed.

(** With the goal on [(2, 3)], setting it there once clears it and setting
    it there again brings it back. *)
Lemma marker_toggle_laws_witness :
  worldTree (setWorldTreeAt (set_worldTree (Some (SpawnPoint.mk 2 3)) initial) 2 3) = None
  /\ worldTree (setWorldTreeAt
                  (setWorldTreeAt (set_worldTree (Some (SpawnPoint.mk 2 3)) initial) 2 3) 2 3)
     = Some (SpawnPoint.mk 2 3).
Proof.
  apply (marker_toggle_laws (set_worldTree (Some (SpawnPoint.mk 2 3)) initial) 2 3).
  reflexivity.
Defined.

(** C6 as stated fails when the goal already sits on the coordinate: from
    a goal on [(2, 3)], setting the goal at [(2, 3)] twice in succession
    ends with the goal on [(2, 3)], not with none. *)
Lemma goal_set_twice_not_none :
  worldTree (setWorldTreeAt
               (setWorldTreeAt (set_worldTree (Some (SpawnPoint.mk 2 3)) initial) 2 3) 2 3)
  = Some (SpawnPoint.mk 2 3).
Proof. reflexivity. Qed.

End MarkerFacts.

(* ====================================================================== *)
(** * Properties of import *)
(* ====================================================================== *)

Section ImportFacts.
Import Editor.

(** On the file-input path a payload that does not parse raises the
    notice and nothing else of the editing state changes. *)
Theorem handleImport_malformed_all_or_nothing (s : State) (fname : string) :
  let s' := handleImport s (Some (mkFile fname None)) in
  alerts s' = "Invalid JSON"%string :: alerts s
  /\ data s' = data s
  /\ spawnPoints s' = spawnPoints s
  /\ worldTree s' = worldTree s
  /\ selected s' = selected s
  /\ selectedMultiple s' = selectedMultiple s
  /\ editMode s' = editMode s.
Proof. cbv zeta. repeat split. Qed.

(** C8, on the file-picker path: when the picked file does not parse,
    [handleImportClick] keeps the document, the markers and the selection,
    but it raises no notice; it records the file's handle and name and
    opens the fallback file input instead. *)
Theorem picker_malformed_json_raises_no_notice (s : State) (fname : string) :
  let s' := handleImportClick s (Picked (mkFile fname None)) in
  alerts s' = alerts s
  /\ fileInputClicks s' = S (fileInputClicks s)
  /\ lastFileHandle s' = Some fname
  /\ lastFileName s' = fname
  /\ data s' = data s
  /\ spawnPoints s' = spawnPoints s
  /\ worldTree s' = worldTree s
  /\ selected s' = selected s
  /\ selectedMultiple s' = selectedMultiple s.
Proof. cbv zeta. repeat split. Qed.

End ImportFacts.

(* ====================================================================== *)
(** * Properties of selection *)
(* ====================================================================== *)

Section SelectionFacts.
Import Editor.

Lemma handleHexClick_modifier (s : State) (hex : Hex.t) (e : MouseEvent) :
  editMode s = Terrain -> ctrlKey e || metaKey e = true ->
  selected (handleHexClick s hex e) = Some hex
  /\ editMode (handleHexClick s hex e) = Terrain
  /\ selectedMultiple (handleHexClick s hex e)
     = let seeded :=
         match selected s with
         | Some sel =>
             if (size (selectedMultiple s) =? 0)%nat
                && negb (String.eqb (Hex.id sel) (Hex.id hex))
             then {[Hex.id sel]} ∪ selectedMultiple s else selectedMultiple s
         | None => selectedMultiple s
         end in
       if bool_decide (Hex.id hex ∈ seeded)
       then seeded ∖ {[Hex.id hex]} else {[Hex.id hex]} ∪ seeded.
Proof.
  intros Hm Hk. unfold handleHexClick. rewrite Hm, Hk. cbn. auto.
Qed.

Lemma handleHexClick_plain (s : State) (hex : Hex.t) (e : MouseEvent) :
  editMode s = Terrain -> ctrlKey e || metaKey e = false ->
  selected (handleHexClick s hex e) = Some hex
  /\ editMode (handleHexClick s hex e) = Terrain
  /\ selectedMultiple (handleHexClick s hex e) = ∅.
Proof.
  intros Hm Hk. unfold handleHexClick. rewrite Hm, Hk. cbn. auto.
Qed.

(** A modifier-click on [hex] while only [other] is selected. *)
Lemma modifier_click_on_single (s : State) (other hex : Hex.t) (e : MouseEvent) :
  editMode s = Terrain -> ctrlKey e || metaKey e = true ->
  selected s = Some other -> selectedMultiple s = ∅ ->
  Hex.id other <> Hex.id hex ->
  selectedMultiple (handleHexClick s hex e) = {[Hex.id other; Hex.id hex]}
  /\ selected (handleHexClick s hex e) = Some hex
  /\ editMode (handleHexClick s hex e) = Terrain.
Proof.
  intros Hm Hk Hsel Hmulti Hne.
  destruct (handleHexClick_modifier s hex e Hm Hk) as (Hs & Hmode & Hset).
  split; [|split; assumption].
  rewrite Hset, Hsel, Hmulti. cbv zeta.
  rewrite size_empty. rewrite (proj2 (String.eqb_neq _ _) Hne). cbn [Nat.eqb negb andb].
  rewrite bool_decide_eq_false_2 by set_solver. set_solver.
Qed.

(** C7: in terrain mode, a modifier-click on [hex] while exactly [other]
    (a different tile) is selected leaves the multi-set holding [other]
    and [hex]; a modifier-click always makes the clicked tile the focus;
    and selecting [a], modifier-clicking [b], then modifier-clicking [a]
    again ends with the multi-set [{b}] and focus [a]. *)
Theorem modifier_click_seeds_then_toggles :
  (forall (s : State) (other hex : Hex.t) (e : MouseEvent),
      editMode s = Terrain -> ctrlKey e || metaKey e = true ->
      selected s = Some other -> selectedMultiple s = ∅ ->
      Hex.id other <> Hex.id hex ->
      selectedMultiple (handleHexClick s hex e) = {[Hex.id other; Hex.id hex]}
      /\ selected (handleHexClick s hex e) = Some hex)
  /\ (forall (s : State) (hex : Hex.t) (e : MouseEvent),
      editMode s = Terrain -> ctrlKey e || metaKey e = true ->
      selected (handleHexClick s hex e) = Some hex)
  /\ (forall (s : State) (a b : Hex.t) (plain mod1 mod2 : MouseEvent),
      editMode s = Terrain ->
      ctrlKey plain || metaKey plain = false ->
      ctrlKey mod1 || metaKey mod1 = true ->
      ctrlKey mod2 || metaKey mod2 = true ->
      Hex.id a <> Hex.id b ->
      let s3 := handleHexClick (handleHexClick (handleHexClick s a plain) b mod1) a mod2 in
      selectedMultiple s3 = {[Hex.id b]} /\ selected s3 = Some a).
Proof.
  split; [|split].
  - intros s other hex e Hm Hk Hsel Hmulti Hne.
    destruct (modifier_click_on_single s other hex e) as (? & ? & ?); auto.
  - intros s hex e Hm Hk. now destruct (handleHexClick_modifier s hex e Hm Hk).
  - intros s a b plain mod1 mod2 Hm Hp H1 H2 Hne. cbv zeta.
    destruct (handleHexClick_plain s a plain Hm Hp) as (Hs1 & Hm1 & Hset1).
    destruct (modifier_click_on_single _ a b mod1 Hm1 H1 Hs1 Hset1 Hne)
      as (Hset2 & Hs2 & Hm2).
    destruct (handleHexClick_modifier _ a mod2 Hm2 H2) as (Hs3 & _ & Hset3).
    split; [|assumption].
    rewrite Hset3, Hs2, Hset2. cbv zeta.
    assert (Hsz : (size ({[Hex.id a; Hex.id b]} : gset string) =? 0)%nat = false).
    { apply Nat.eqb_neq. apply size_non_empty_iff. set_solver. }
    rewrite Hsz. cbn [andb].
    rewrite bool_decide_eq_true_2 by set_solver. set_solver.
Qed.

(** The scenario on the sample document: select [(0,0)], Ctrl-click
    [(1,0)], Ctrl-click [(0,0)]. *)
Lemma modifier_click_seeds_then_toggles_witness :
  let s3 := handleHexClick
              (handleHexClick
                 (handleHexClick Sample.loaded Sample.hexA (Sample.at_ false 0))
                 Sample.hexB (Sample.at_ true 1))
              Sample.hexA (Sample.at_ true 0) in
  selectedMultiple s3 = {["hex_1_0"%string]} /\ selected s3 = Some Sample.hexA.
Proof.
  apply (proj2 (proj2 modifier_click_seeds_then_toggles)
           Sample.loaded Sample.hexA Sample.hexB
           (Sample.at_ false 0) (Sample.at_ true 1) (Sample.at_ true 0));
    (reflexivity || discriminate).
Defined.

End SelectionFacts.

(* ====================================================================== *)
(** * Properties of the brush stroke *)
(* ====================================================================== *)

Section BrushFacts.
Import Editor.

(** The three outcomes of one paint attempt. *)
Lemma paint_skips_matching (s : State) (hex : Hex.t) :
  matchesBrush s hex = true -> paintHexWithBrush s hex = s.
Proof.
  intros Hm. unfold paintHexWithBrush.
  destruct (data s); [|reflexivity].
  destruct (bool_decide _); [reflexivity|]. now rewrite Hm.
Qed.

Lemma paint_skips_painted (s : State) (hex : Hex.t) :
  Hex.id hex ∈ paintedInStroke s -> paintHexWithBrush s hex = s.
Proof.
  intros Hin. unfold paintHexWithBrush.
  destruct (data s); [|reflexivity].
  now rewrite bool_decide_eq_true_2.
Qed.

Lemma paint_writes (s : State) (d : MapData.t) (hex : Hex.t) :
  data s = Some d -> Hex.id hex ∉ paintedInStroke s -> matchesBrush s hex = false ->
  paintHexWithBrush s hex
  = set_paintLog (Hex.id hex :: paintLog s)
      (set_data (Some (withMap d (List.map (fun h =>
         if String.eqb (Hex.id h) (Hex.id hex) then brushed s h else h) (MapData.map d))))
        (set_paintedInStroke ({[Hex.id hex]} ∪ paintedInStroke s) s)).
Proof.
  intros Hd Hnin Hm. unfold paintHexWithBrush.
  rewrite Hd, bool_decide_eq_false_2, Hm by assumption. reflexivity.
Qed.

(** One attempt either changes nothing or is one of [paint_writes]. *)
Lemma paint_cases (s : State) (hex : Hex.t) :
  paintHexWithBrush s hex = s
  \/ exists d, data s = Some d /\ (Hex.id hex ∉ paintedInStroke s)
               /\ matchesBrush s hex = false.
Proof.
  destruct (data s) as [d|] eqn:Hd.
  - destruct (decide (Hex.id hex ∈ paintedInStroke s)) as [Hin|Hnin].
    + left. now apply paint_skips_painted.
    + destruct (matchesBrush s hex) eqn:Hm.
      * left. now apply paint_skips_matching.
      * right. eauto.
  - left. unfold paintHexWithBrush. now rewrite Hd.
Qed.

Lemma hexUnderPointer_In (s : State) (e : MouseEvent) (hex : Hex.t) :
  hexUnderPointer s e = Some hex ->
  exists d, data s = Some d /\ In hex (MapData.map d).
Proof.
  unfold hexUnderPointer. destruct (data s) as [d|]; [|discriminate].
  destruct (target e) as [i|]; [|discriminate].
  intros H. exists d. split; [reflexivity|].
  apply list_elem_of_In. eapply list_elem_of_lookup_2. exact H.
Qed.

(** *** The painted record accounts for the writes *)

Lemma paint_paintedOnce (base s : State) (hex : Hex.t) :
  paintedOnce base s -> paintedOnce base (paintHexWithBrush s hex).
Proof.
  intros Hinv. destruct (paint_cases s hex) as [->|(d & Hd & Hnin & Hm)]; [assumption|].
  rewrite (paint_writes s d hex Hd Hnin Hm).
  intros i. unfold mutations. cbn.
  specialize (Hinv i). unfold mutations in Hinv.
  destruct (String.string_dec (Hex.id hex) i) as [<-|Hne].
  - rewrite bool_decide_eq_false_2 in Hinv by assumption.
    rewrite bool_decide_eq_true_2 by set_solver. lia.
  - rewrite Hinv.
    destruct (decide (i ∈ paintedInStroke s)).
    + rewrite !bool_decide_eq_true_2 by set_solver. reflexivity.
    + rewrite !bool_decide_eq_false_2 by set_solver. reflexivity.
Qed.

Lemma paintUnderPointer_paintedOnce (base s : State) (e : MouseEvent) :
  paintedOnce base s -> paintedOnce base (paintUnderPointer s e).
Proof.
  intros H. unfold paintUnderPointer.
  destruct (hexUnderPointer s e); [now apply paint_paintedOnce | assumption].
Qed.

Lemma dragSelect_keeps_brush_state (s : State) (e : MouseEvent) :
  let s' := dragSelectUnderPointer s e in
  paintLog s' = paintLog s /\ paintedInStroke s' = paintedInStroke s
  /\ data s' = data s /\ brushTerrain s' = brushTerrain s /\ brushTier s' = brushTier s.
Proof.
  cbv zeta. unfold dragSelectUnderPointer.
  destruct (hexUnderPointer s e); repeat split.
Qed.

Lemma onMouseMove_paintedOnce (base s : State) (e : MouseEvent) :
  paintedOnce base s -> paintedOnce base (onMouseMove s e).
Proof.
  intros H. unfold onMouseMove.
  destruct (_ && _); [now apply paintUnderPointer_paintedOnce|].
  destruct (_ && _).
  - destruct (dragSelect_keeps_brush_state s e) as (Hl & Hp & _).
    intros i. unfold mutations. rewrite Hl, Hp. apply H.
  - destruct (negb _); assumption.
Qed.

Lemma moves_paintedOnce (base : State) (moves : list MouseEvent) (s : State) :
  paintedOnce base s -> paintedOnce base (fold_left onMouseMove moves s).
Proof.
  revert s. induction moves as [|e moves IH]; intros s H; cbn; [assumption|].
  apply IH. now apply onMouseMove_paintedOnce.
Qed.

Lemma brush_down_paintedOnce (s : State) (down : MouseEvent) :
  button down = 0 -> brushEnabled s = true -> editMode s = Terrain ->
  paintedOnce s (onMouseDown s down).
Proof.
  intros Hb He Hm. unfold onMouseDown. rewrite Hb, He, Hm. cbn [Z.eqb negb andb isTerrain].
  apply paintUnderPointer_paintedOnce.
  intros i. unfold mutations. cbn.
  rewrite bool_decide_eq_false_2 by set_solver. lia.
Qed.

(** *** Tiles that match the brush are never written *)

Lemma matchesBrush_same_brush (s s' : State) (h : Hex.t) :
  brushTerrain s' = brushTerrain s -> brushTier s' = brushTier s ->
  matchesBrush s' h = matchesBrush s h.
Proof. unfold matchesBrush. now intros -> ->. Qed.

Lemma paint_allMatch (s : State) (d : MapData.t) (hex : Hex.t) (i : string) :
  data s = Some d -> In hex (MapData.map d) -> allMatchBrush s i ->
  allMatchBrush (paintHexWithBrush s hex) i
  /\ mutations (paintHexWithBrush s hex) i = mutations s i.
Proof.
  intros Hd Hin Hall.
  destruct (paint_cases s hex) as [->|(d' & Hd' & Hnin & Hm)]; [split; [assumption|reflexivity]|].
  assert (Hne : Hex.id hex <> i).
  { intros Heq. rewrite (Hall d hex Hd Hin Heq) in Hm. discriminate. }
  rewrite (paint_writes s d' hex Hd' Hnin Hm). split.
  - intros d2 h2 Hd2 Hin2 Hid. cbn in Hd2. injection Hd2 as <-. cbn in Hin2.
    apply in_map_iff in Hin2 as (h & Hh & Hin2).
    rewrite (matchesBrush_same_brush s) by reflexivity.
    destruct (String.eqb (Hex.id h) (Hex.id hex)) eqn:E.
    + apply String.eqb_eq in E. subst h2. cbn in Hid. congruence.
    + subst h2. exact (Hall d' h Hd' Hin2 Hid).
  - unfold mutations. cbn. destruct (String.string_dec (Hex.id hex) i); [contradiction|reflexivity].
Qed.

Lemma paintUnderPointer_allMatch (s : State) (e : MouseEvent) (i : string) :
  allMatchBrush s i ->
  allMatchBrush (paintUnderPointer s e) i
  /\ mutations (paintUnderPointer s e) i = mutations s i.
Proof.
  intros Hall. unfold paintUnderPointer.
  destruct (hexUnderPointer s e) as [hex|] eqn:E; [|split; [assumption|reflexivity]].
  apply hexUnderPointer_In in E as (d & Hd & Hin). now apply (paint_allMatch s d).
Qed.

Lemma onMouseMove_allMatch (s : State) (e : MouseEvent) (i : string) :
  allMatchBrush s i ->
  allMatchBrush (onMouseMove s e) i /\ mutations (onMouseMove s e) i = mutations s i.
Proof.
  intros Hall. unfold onMouseMove.
  destruct (_ && _); [now apply paintUnderPointer_allMatch|].
  destruct (_ && _).
  - destruct (dragSelect_keeps_brush_state s e) as (Hl & _ & Hd & Ht & Hr).
    split; [|unfold mutations; now rewrite Hl].
    intros d h Hd' Hin Hid. rewrite (matchesBrush_same_brush s) by assumption.
    rewrite Hd in Hd'. exact (Hall d h Hd' Hin Hid).
  - destruct (negb _); split; (assumption || reflexivity).
Qed.

Lemma moves_allMatch (moves : list MouseEvent) (s : State) (i : string) :
  allMatchBrush s i ->
  mutations (fold_left onMouseMove moves s) i = mutations s i.
Proof.
  revert s. induction moves as [|e moves IH]; intros s H; cbn; [reflexivity|].
  destruct (onMouseMove_allMatch s e i H) as (H' & E). now rewrite (IH _ H').
Qed.

Lemma brush_down_allMatch (s : State) (down : MouseEvent) (i : string) :
  button down = 0 -> brushEnabled s = true -> editMode s = Terrain ->
  allMatchBrush s i ->
  allMatchBrush (onMouseDown s down) i /\ mutations (onMouseDown s down) i = mutations s i.
Proof.
  intros Hb He Hm Hall. unfold onMouseDown. rewrite Hb, He, Hm.
  cbn [Z.eqb negb andb isTerrain].
  set (s1 := set_paintedInStroke ∅ _).
  assert (Hall1 : allMatchBrush s1 i) by exact Hall.
  destruct (paintUnderPointer_allMatch s1 down i Hall1) as (H & E).
  split; [exact H | exact E].
Qed.

(** *** Recorded tiles carry the brush *)

Lemma matchesBrush_brushed (s : State) (h : Hex.t) : matchesBrush s (brushed s h) = true.
Proof. unfold matchesBrush, brushed. cbn. now rewrite String.eqb_refl, Z.eqb_refl. Qed.

Lemma paint_paintedMatch (s : State) (hex : Hex.t) :
  paintedMatchBrush s -> paintedMatchBrush (paintHexWithBrush s hex).
Proof.
  intros Hinv. destruct (paint_cases s hex) as [->|(d & Hd & Hnin & Hm)]; [assumption|].
  rewrite (paint_writes s d hex Hd Hnin Hm).
  intros d2 h2 Hd2 Hin2 Hrec. cbn in Hd2. injection Hd2 as <-. cbn in Hin2, Hrec.
  apply in_map_iff in Hin2 as (h & Hh & Hin2).
  rewrite (matchesBrush_same_brush s) by reflexivity.
  destruct (String.eqb (Hex.id h) (Hex.id hex)) eqn:E; subst h2.
  - apply matchesBrush_brushed.
  - apply String.eqb_neq in E. apply (Hinv d h Hd Hin2). set_solver.
Qed.

Lemma onMouseMove_paintedMatch (s : State) (e : MouseEvent) :
  paintedMatchBrush s -> paintedMatchBrush (onMouseMove s e).
Proof.
  intros H. unfold onMouseMove.
  destruct (_ && _).
  { unfold paintUnderPointer. destruct (hexUnderPointer s e);
      [now apply paint_paintedMatch | assumption]. }
  destruct (_ && _).
  - destruct (dragSelect_keeps_brush_state s e) as (_ & Hp & Hd & Ht & Hr).
    intros d h Hd' Hin Hrec. rewrite (matchesBrush_same_brush s) by assumption.
    rewrite Hd in Hd'. rewrite Hp in Hrec. exact (H d h Hd' Hin Hrec).
  - destruct (negb _); assumption.
Qed.

Lemma moves_paintedMatch (moves : list MouseEvent) (s : State) :
  paintedMatchBrush s -> paintedMatchBrush (fold_left onMouseMove moves s).
Proof.
  revert s. induction moves as [|e moves IH]; intros s H; cbn; [assumption|].
  apply IH. now apply onMouseMove_paintedMatch.
Qed.

Lemma brush_down_paintedMatch (s : State) (down : MouseEvent) :
  button down = 0 -> brushEnabled s = true -> editMode s = Terrain ->
  paintedMatchBrush (onMouseDown s down).
Proof.
  intros Hb He Hm. unfold onMouseDown. rewrite Hb, He, Hm.
  cbn [Z.eqb negb andb isTerrain].
  set (s1 := set_paintedInStroke ∅ _).
  assert (H1 : paintedMatchBrush s1).
  { intros d h _ _ Hrec. cbn in Hrec. set_solver. }
  unfold paintUnderPointer. destruct (hexUnderPointer s1 down);
    [now apply paint_paintedMatch | assumption].
Qed.

(** C2: one brush stroke, from a pointer-down that starts brush painting
    through any moves.  An attempt on a tile that matches the brush, or
    whose id is in the painted record, changes nothing; any other attempt
    rewrites the tiles of that id and records the id; and during the
    stroke a tile under the pointer that does not match the brush is never
    in the record, so the attempt on it does write.  Over the stroke every
    id is rewritten at most once, exactly the recorded ids are rewritten,
    an id whose tiles matched the brush at the start is never rewritten
    nor recorded, and pointer-up empties the record. *)
Theorem brush_stroke_paints_each_tile_once
    (s : State) (down : MouseEvent) (moves : list MouseEvent) :
  button down = 0 -> brushEnabled s = true -> editMode s = Terrain ->
  let s' := strokeMoves s down moves in
  (forall t hex, matchesBrush t hex = true -> paintHexWithBrush t hex = t)
  /\ (forall t hex, Hex.id hex ∈ paintedInStroke t -> paintHexWithBrush t hex = t)
  /\ (forall t d hex,
        data t = Some d -> Hex.id hex ∉ paintedInStroke t -> matchesBrush t hex = false ->
        let t' := paintHexWithBrush t hex in
        data t' = Some (withMap d (List.map (fun h =>
                    if String.eqb (Hex.id h) (Hex.id hex) then brushed t h else h)
                    (MapData.map d)))
        /\ paintedInStroke t' = {[Hex.id hex]} ∪ paintedInStroke t
        /\ paintLog t' = Hex.id hex :: paintLog t)
  /\ (forall e hex,
        hexUnderPointer s' e = Some hex -> matchesBrush s' hex = false ->
        (Hex.id hex ∉ paintedInStroke s')
        /\ paintLog (paintHexWithBrush s' hex) = Hex.id hex :: paintLog s')
  /\ (forall i, (mutations s' i <= mutations s i + 1)%nat
                /\ (i ∈ paintedInStroke s' <-> mutations s' i = S (mutations s i)))
  /\ (forall i, allMatchBrush s i ->
                mutations s' i = mutations s i /\ i ∉ paintedInStroke s')
  /\ paintedInStroke (stroke s down moves) = ∅
  /\ paintLog (stroke s down moves) = paintLog s'
  /\ data (stroke s down moves) = data s'.
Proof.
  intros Hb He Hm s'.
  assert (Hacc : paintedOnce s s').
  { apply moves_paintedOnce. now apply brush_down_paintedOnce. }
  split; [exact paint_skips_matching|].
  split; [exact paint_skips_painted|].
  split.
  { intros t d hex Hd Hnin Hmt. cbv zeta. rewrite (paint_writes t d hex Hd Hnin Hmt).
    repeat split. }
  split.
  { intros e hex Hu Hmt.
    assert (Hrec : paintedMatchBrush s').
    { apply moves_paintedMatch. now apply brush_down_paintedMatch. }
    destruct (hexUnderPointer_In s' e hex Hu) as (d & Hd & Hin).
    assert (Hnin : Hex.id hex ∉ paintedInStroke s').
    { intros Hp. rewrite (Hrec d hex Hd Hin Hp) in Hmt. discriminate. }
    split; [exact Hnin|]. now rewrite (paint_writes s' d hex Hd Hnin Hmt). }
  split.
  { intros i. specialize (Hacc i).
    destruct (decide (i ∈ paintedInStroke s')) as [Hin|Hnin].
    - rewrite bool_decide_eq_true_2 in Hacc by assumption. split; [lia|]. split; [lia|auto].
    - rewrite bool_decide_eq_false_2 in Hacc by assumption. split; [lia|]. split; [tauto|lia]. }
  split.
  { intros i Hall.
    destruct (brush_down_allMatch s down i Hb He Hm Hall) as (Hall1 & E1).
    assert (E : mutations s' i = mutations s i).
    { unfold s', strokeMoves. now rewrite (moves_allMatch moves _ i Hall1). }
    split; [exact E|].
    intros Hin. specialize (Hacc i).
    rewrite bool_decide_eq_true_2 in Hacc by assumption. lia. }
  repeat split.
Qed.

(** The brush water/0 dragged from [(0,0)] grass/1 over [(1,0)] water/0
    and back: [(0,0)] is rewritten once, [(1,0)] never. *)
Lemma brush_stroke_paints_each_tile_once_witness :
  let s' := strokeMoves Sample.brushing (Sample.at_ false 0)
              [Sample.at_ false 1; Sample.at_ false 0; Sample.at_ false 1] in
  ((mutations s' "hex_0_0" <= mutations Sample.brushing "hex_0_0" + 1)%nat
   /\ ("hex_0_0"%string ∈ paintedInStroke s'
       <-> mutations s' "hex_0_0" = S (mutations Sample.brushing "hex_0_0")))
  /\ paintLog s' = ["hex_0_0"%string].
Proof.
  split; [|reflexivity].
  apply (brush_stroke_paints_each_tile_once Sample.brushing (Sample.at_ false 0)
           [Sample.at_ false 1; Sample.at_ false 0; Sample.at_ false 1]);
    reflexivity.
Defined.

End BrushFacts.

(* ====================================================================== *)
(** * Properties of the stroke modes *)
(* ====================================================================== *)

Section StrokeModeFacts.
Import Editor.

(** Pointer-down with the left button picks exactly one mode. *)
Lemma onMouseDown_flags (s : State) (e : MouseEvent) :
  button e = 0 ->
  let brush := brushEnabled s && isTerrain (editMode s) in
  let drag := negb brush && ((ctrlKey e || metaKey e) && isTerrain (editMode s)) in
  isBrushPainting (onMouseDown s e) = brush
  /\ isDragSelecting (onMouseDown s e) = drag
  /\ isPanning (onMouseDown s e) = negb brush && negb drag.
Proof.
  intros Hb. cbv zeta. unfold onMouseDown. rewrite Hb. cbn [Z.eqb negb].
  destruct (brushEnabled s && isTerrain (editMode s)).
  - unfold paintUnderPointer.
    destruct (hexUnderPointer _ e) as [hex|]; [|repeat split].
    destruct (paint_cases
                (set_paintedInStroke ∅
                   (set_isDragSelecting false
                      (set_isPanning false (set_isBrushPainting true s)))) hex)
      as [->|(d & Hd & Hnin & Hm)]; [repeat split|].
    rewrite (paint_writes _ d hex Hd Hnin Hm). repeat split.
  - destruct ((ctrlKey e || metaKey e) && isTerrain (editMode s)); repeat split.
Qed.

Lemma paintUnderPointer_flags (s : State) (e : MouseEvent) :
  isBrushPainting (paintUnderPointer s e) = isBrushPainting s
  /\ isDragSelecting (paintUnderPointer s e) = isDragSelecting s
  /\ isPanning (paintUnderPointer s e) = isPanning s.
Proof.
  unfold paintUnderPointer. destruct (hexUnderPointer s e) as [hex|]; [|repeat split].
  destruct (paint_cases s hex) as [->|(d & Hd & Hnin & Hm)]; [repeat split|].
  rewrite (paint_writes _ d hex Hd Hnin Hm). repeat split.
Qed.

(** A pointer-move never touches the three mode refs. *)
Lemma onMouseMove_flags (s : State) (e : MouseEvent) :
  isBrushPainting (onMouseMove s e) = isBrushPainting s
  /\ isDragSelecting (onMouseMove s e) = isDragSelecting s
  /\ isPanning (onMouseMove s e) = isPanning s.
Proof.
  unfold onMouseMove.
  destruct (_ && _); [apply paintUnderPointer_flags|].
  destruct (_ && _).
  - unfold dragSelectUnderPointer. destruct (hexUnderPointer s e); repeat split.
  - destruct (negb _); repeat split.
Qed.

Lemma handle_activeModes (s : State) (ev : PointerEvent) :
  (activeModes s <= 1)%nat -> (activeModes (handle s ev) <= 1)%nat.
Proof.
  intros H. destruct ev as [e|e|]; cbn [handle].
  - destruct (Z.eq_dec (button e) 0) as [Hb|Hb].
    + destruct (onMouseDown_flags s e Hb) as (E1 & E2 & E3).
      unfold activeModes. rewrite E1, E2, E3.
      destruct (brushEnabled s && isTerrain (editMode s)),
               ((ctrlKey e || metaKey e) && isTerrain (editMode s)); cbn; lia.
    + unfold onMouseDown. apply Z.eqb_neq in Hb. rewrite Hb. exact H.
  - destruct (onMouseMove_flags s e) as (E1 & E2 & E3).
    unfold activeModes. rewrite E1, E2, E3. exact H.
  - cbn. lia.
Qed.

Lemma run_activeModes (evs : list PointerEvent) (s : State) :
  (activeModes s <= 1)%nat -> (activeModes (run s evs) <= 1)%nat.
Proof.
  revert s. induction evs as [|ev evs IH]; intros s H; cbn; [assumption|].
  apply IH. now apply handle_activeModes.
Qed.

(** C9 as the code has it.  From a state with at most one mode ref set
    (such as the initial one), every interleaving of pointer events keeps
    at most one set; a left-button pointer-down sets exactly the one
    chosen by the brush flag, the modifier keys and the edit mode; no
    pointer-move changes the refs; and a pointer-move applies the action
    of the mode that is set only while that mode's guard still holds (the
    brush flag for painting, Ctrl or Meta for drag-select, nothing for
    panning) and otherwise does nothing. *)
Theorem stroke_mode_cached_and_guarded (s : State) :
  (activeModes s <= 1)%nat ->
  (forall evs, (activeModes (run s evs) <= 1)%nat)
  /\ (forall e, button e = 0 ->
        let brush := brushEnabled s && isTerrain (editMode s) in
        let drag := negb brush && ((ctrlKey e || metaKey e) && isTerrain (editMode s)) in
        isBrushPainting (onMouseDown s e) = brush
        /\ isDragSelecting (onMouseDown s e) = drag
        /\ isPanning (onMouseDown s e) = negb brush && negb drag)
  /\ (forall e,
        isBrushPainting (onMouseMove s e) = isBrushPainting s
        /\ isDragSelecting (onMouseMove s e) = isDragSelecting s
        /\ isPanning (onMouseMove s e) = isPanning s)
  /\ (forall e,
        (isBrushPainting s = true ->
           onMouseMove s e = if brushEnabled s then paintUnderPointer s e else s)
        /\ (isDragSelecting s = true ->
           onMouseMove s e
           = if ctrlKey e || metaKey e then dragSelectUnderPointer s e else s)
        /\ (isPanning s = true -> onMouseMove s e = panTo s e)
        /\ (activeModes s = 0%nat -> onMouseMove s e = s)).
Proof.
  intros H.
  split; [intros evs; now apply run_activeModes|].
  split; [intros e Hb; now apply onMouseDown_flags|].
  split; [intros e; apply onMouseMove_flags|].
  intros e. unfold activeModes in *. unfold onMouseMove.
  destruct (isBrushPainting s), (isDragSelecting s), (isPanning s);
    cbn in H; try lia; cbn [andb negb];
    repeat split; intros; try discriminate; try reflexivity;
    try (destruct (brushEnabled s); reflexivity);
    try (destruct (ctrlKey e || metaKey e); reflexivity).
Qed.

(** A Ctrl-drag over the sample document followed by a plain drag: at
    most one mode is set at the end, and a pointer-move leaves the refs as
    the pointer-down set them. *)
Lemma stroke_mode_cached_and_guarded_witness :
  (activeModes (run Sample.loaded
                  [PointerDown (Sample.at_ true 0); PointerMove (Sample.at_ true 1);
                   PointerUp; PointerDown (Sample.at_ false 0);
                   PointerMove (Sample.at_ false 1)]) <= 1)%nat
  /\ isDragSelecting (onMouseMove (onMouseDown Sample.loaded (Sample.at_ true 0))
                                  (Sample.at_ false 1))
     = isDragSelecting (onMouseDown Sample.loaded (Sample.at_ true 0)).
Proof.
  split.
  - apply (stroke_mode_cached_and_guarded Sample.loaded). cbn. lia.
  - apply (stroke_mode_cached_and_guarded (onMouseDown Sample.loaded (Sample.at_ true 0))).
    cbn. lia.
Defined.

(** C9 as stated fails: the guards are read again on every move.  A
    drag-select started with Ctrl adds the tile under the pointer while
    Ctrl is held and does nothing once Ctrl is released; a brush stroke
    paints the tile under the pointer while the brush is on and does
    nothing once it is switched off. *)
Lemma released_guard_suspends_the_mode :
  let drag := onMouseDown Sample.loaded (Sample.at_ true 0) in
  let paint := onMouseDown Sample.brushing (Sample.at_ false 1) in
  (isDragSelecting drag = true
   /\ selectedMultiple (onMouseMove drag (Sample.at_ true 1)) = {["hex_1_0"%string]}
   /\ onMouseMove drag (Sample.at_ false 1) = drag)
  /\ (isBrushPainting paint = true
      /\ paintLog (onMouseMove paint (Sample.at_ false 0)) = ["hex_0_0"%string]
      /\ onMouseMove (set_brushEnabled false paint) (Sample.at_ false 0)
         = set_brushEnabled false paint).
Proof. cbv zeta. repeat split. Qed.

End StrokeModeFacts.

(* ====================================================================== *)
(** * Further properties of the layout *)
(* ====================================================================== *)

Section LayoutFacts.
Import Geometry.
#[local] Open Scope R_scope.

Lemma fold_max_ge_init (l : list Z) (a : Z) : (a <= fold_left Z.max l a)%Z.
Proof.
  revert a. induction l as [|x l IH]; intros a; cbn; [lia|].
  specialize (IH (Z.max a x)). lia.
Qed.

Lemma fold_max_ge_elem (l : list Z) (a x : Z) : In x l -> (x <= fold_left Z.max l a)%Z.
Proof.
  revert a. induction l as [|y l IH]; intros a; cbn; [intros []|].
  intros [->|Hin]; [|now apply IH].
  pose proof (fold_max_ge_init l (Z.max a x)). lia.
Qed.

Lemma fold_max_attained (l : list Z) (a : Z) :
  fold_left Z.max l a = a \/ In (fold_left Z.max l a) l.
Proof.
  revert a. induction l as [|y l IH]; intros a; cbn; [left; reflexivity|].
  destruct (IH (Z.max a y)) as [E|Hin]; [|right; right; exact Hin].
  rewrite E. destruct (Z.max_spec a y) as [[_ ->]|[_ ->]]; [right; left|left]; reflexivity.
Qed.

Lemma maxR_ge (m : list Hex.t) (h : Hex.t) : In h m -> (Hex.r h <= maxR m)%Z.
Proof.
  destruct m as [|h0 t]; cbn [maxR]; [intros []|].
  intros [<-|Hin]; [apply fold_max_ge_init|].
  apply fold_max_ge_elem. now apply in_map.
Qed.

(** [maxR] is the greatest row of the map: no tile has a greater [r], and
    on a non-empty map some tile has exactly that [r]. *)
Theorem maxR_is_greatest_row (m : list Hex.t) :
  (forall h, In h m -> (Hex.r h <= maxR m)%Z)
  /\ (m <> [] -> exists h, In h m /\ Hex.r h = maxR m).
Proof.
  destruct m as [|h0 t]; cbn [maxR].
  - split; [intros h []|congruence].
  - split.
    + intros h [<-|Hin].
      * apply fold_max_ge_init.
      * apply fold_max_ge_elem. now apply in_map.
    + intros _. destruct (fold_max_attained (List.map Hex.r t) (Hex.r h0)) as [E|Hin].
      * exists h0. split; [left; reflexivity | now rewrite E].
      * apply in_map_iff in Hin as (h & E & Hin). exists h. split; [right; exact Hin | exact E].
Qed.

Lemma maxR_is_greatest_row_witness :
  (Hex.r Sample.hexB <= maxR [Sample.hexA; Sample.hexB])%Z
  /\ exists h, In h [Sample.hexA; Sample.hexB] /\ Hex.r h = maxR [Sample.hexA; Sample.hexB].
Proof.
  split.
  - apply (maxR_is_greatest_row [Sample.hexA; Sample.hexB]). right; left; reflexivity.
  - apply (maxR_is_greatest_row [Sample.hexA; Sample.hexB]). discriminate.
Defined.

Lemma sizePx_nonneg (d : MapData.t) : (0 <= MapData.hexSize d)%Q -> 0 <= sizePx d.
Proof.
  intros H. unfold sizePx. apply Qle_Rle in H. rewrite RMicromega.Q2R_0 in H. lra.
Qed.

(** Under mirroring a pointy map hangs below the line [y = 0]: with a
    non-negative tile size every tile is placed at [y >= 0], and the tiles
    of the greatest row are placed at [y = 0]. *)
Theorem mirrored_rows_start_at_zero (L : Layout) (d : MapData.t) (h : Hex.t) :
  mirror L = true -> MapData.orientation d = Pointy ->
  (0 <= MapData.hexSize d)%Q -> In h (MapData.map d) ->
  0 <= snd (centre L d h)
  /\ (Hex.r h = maxR (MapData.map d) -> snd (centre L d h) = 0).
Proof.
  intros Hm Ho Hs Hin. unfold centre, axialToPixel. rewrite Hm, Ho. cbn [snd].
  pose proof (sizePx_nonneg d Hs) as Hsz.
  pose proof (maxR_ge (MapData.map d) h Hin) as Hmax. split.
  - apply IZR_le in Hmax. rewrite minus_IZR. nra.
  - intros ->. rewrite Z.sub_diag. lra.
Qed.

Lemma mirrored_rows_start_at_zero_witness :
  0 <= snd (centre (mkLayout true true true) Sample.doc Sample.hexA)
  /\ (Hex.r Sample.hexA = maxR (MapData.map Sample.doc) ->
      snd (centre (mkLayout true true true) Sample.doc Sample.hexA) = 0).
Proof.
  apply (mirrored_rows_start_at_zero (mkLayout true true true) Sample.doc Sample.hexA);
    [reflexivity | reflexivity | discriminate | left; reflexivity].
Defined.

(** Without mirroring the two orientations are transposes of each other:
    the flat centre of [(q, r)] is the pointy centre of [(r, q)] with its
    coordinates swapped, in both variants of [axialToPixel]. *)
Theorem flat_is_transposed_pointy
    (q r : Z) (size : R) (rect stagger : bool) (maxR : Z) :
  let swap := fun p : R * R => (snd p, fst p) in
  axialToPixel q r size Flat rect stagger false maxR
  = swap (axialToPixel r q size Pointy rect stagger false maxR)
  /\ axialToPixel_jsx q r size Flat rect stagger false maxR
     = swap (axialToPixel_jsx r q size Pointy rect stagger false maxR).
Proof. cbv zeta. split; reflexivity. Qed.

(** The hit tester, asked at the centre of a tile of the map, answers with
    a tile placed at that very centre (the tile itself, or an earlier one
    placed on top of it), as long as the tile size is positive. *)
Theorem findHexAtPoint_at_centre (L : Layout) (d : MapData.t) (h : Hex.t) :
  (0 < MapData.hexSize d)%Q -> In h (MapData.map d) ->
  exists hex,
    findHexAtPoint L (Some d) (fst (centre L d h)) (snd (centre L d h)) = Some hex
    /\ In hex (MapData.map d)
    /\ centre L d hex = centre L d h.
Proof.
  intros Hs Hin. unfold findHexAtPoint.
  set (x := fst (centre L d h)). set (y := snd (centre L d h)).
  assert (Hd0 : distTo x y (centre L d h) = 0).
  { unfold distTo, x, y.
    replace ((fst (centre L d h) - fst (centre L d h)) ^ 2
             + (snd (centre L d h) - snd (centre L d h)) ^ 2) with 0 by ring.
    apply sqrt_0. }
  assert (Hthr : 0 < sizePx d * 0.9).
  { unfold sizePx. apply Qlt_Rlt in Hs. rewrite RMicromega.Q2R_0 in Hs. lra. }
  pose proof (hitLoop_spec L d x y (MapData.map d)) as H. cbv zeta in H.
  destruct (hitLoop L d x y (MapData.map d)) as [[hex|] cd]; cbn [fst].
  - destruct H as (_ & _ & before & after & Hmap & Hb & Ha).
    exists hex. split; [reflexivity|].
    assert (Hhex : In hex (MapData.map d)) by (rewrite Hmap; apply in_elt).
    split; [exact Hhex|].
    assert (Hle : distTo x y (centre L d hex) <= 0).
    { rewrite Hmap in Hin. apply in_app_or in Hin as [Hin|[<-|Hin]].
      - specialize (Hb _ Hin). lra.
      - lra.
      - specialize (Ha _ Hin). lra. }
    unfold distTo in Hle.
    set (u := x - fst (centre L d hex)) in *. set (v := y - snd (centre L d hex)) in *.
    assert (Hsq : 0 <= u ^ 2 + v ^ 2)
      by (apply Rplus_le_le_0_compat; apply pow2_ge_0).
    pose proof (sqrt_pos (u ^ 2 + v ^ 2)).
    assert (Hz : sqrt (u ^ 2 + v ^ 2) = 0) by lra.
    apply sqrt_eq_0 in Hz; [|exact Hsq].
    rewrite <- !Rsqr_pow2 in Hz. apply Rplus_sqr_eq_0 in Hz as [Hu Hv].
    unfold u in Hu. unfold v in Hv.
    destruct (centre L d hex) as [a b], (centre L d h) as [a' b'].
    cbn in *. subst x y. f_equal; lra.
  - destruct H as (_ & Hall). specialize (Hall h Hin). lra.
Qed.

Lemma findHexAtPoint_at_centre_witness :
  exists hex,
    findHexAtPoint (mkLayout true true true) (Some Sample.doc)
      (fst (centre (mkLayout true true true) Sample.doc Sample.hexB))
      (snd (centre (mkLayout true true true) Sample.doc Sample.hexB)) = Some hex
    /\ In hex (MapData.map Sample.doc)
    /\ centre (mkLayout true true true) Sample.doc hex
       = centre (mkLayout true true true) Sample.doc Sample.hexB.
Proof.
  apply (findHexAtPoint_at_centre (mkLayout true true true) Sample.doc Sample.hexB);
    [reflexivity | right; left; reflexivity].
Defined.

End LayoutFacts.

(* ====================================================================== *)
(** * Properties of the tile outline and the viewport *)
(* ====================================================================== *)

Section OutlineFacts.
Import Geometry Render.
#[local] Open Scope R_scope.

Lemma hexVertex_on_circle cx cy size o i :
  let v := hexVertex cx cy size o i in
  (fst v - cx) ^ 2 + (snd v - cy) ^ 2 = size ^ 2.
Proof.
  cbv zeta. unfold hexVertex. cbn [fst snd].
  set (ang := (_ + 60 * INR i) * PI / 180).
  pose proof (sin2_cos2 ang) as H. unfold Rsqr in H.
  replace ((cx + size * cos ang - cx) ^ 2 + (cy + size * sin ang - cy) ^ 2)
    with (size ^ 2 * (sin ang * sin ang + cos ang * cos ang)) by ring.
  rewrite H. ring.
Qed.

Lemma hexVertex_opposite cx cy size o i :
  hexVertex cx cy size o (i + 3)
  = (2 * cx - fst (hexVertex cx cy size o i), 2 * cy - snd (hexVertex cx cy size o i)).
Proof.
  unfold hexVertex. cbn [fst snd].
  set (off := match o with Pointy => 30 | Flat => 0 end).
  replace ((off + 60 * INR (i + 3)) * PI / 180)
    with ((off + 60 * INR i) * PI / 180 + PI)
    by (rewrite plus_INR; cbn [INR]; field).
  rewrite neg_cos, neg_sin. f_equal; ring.
Qed.

(** [hexPoints] draws a regular hexagon around the centre: six vertices,
    each at distance [size] from [(cx, cy)], the fourth to sixth being the
    first to third reflected through the centre; a pointy outline has its
    second vertex straight below the centre at [(cx, cy + size)], a flat
    one its first vertex straight to the right at [(cx + size, cy)]. *)
Theorem hexPoints_regular (cx cy size : R) (o : Orientation) :
  length (hexPoints cx cy size o) = 6%nat
  /\ (forall v, In v (hexPoints cx cy size o) ->
        (fst v - cx) ^ 2 + (snd v - cy) ^ 2 = size ^ 2)
  /\ (forall i v, (i < 3)%nat -> nth_error (hexPoints cx cy size o) i = Some v ->
        nth_error (hexPoints cx cy size o) (i + 3) = Some (2 * cx - fst v, 2 * cy - snd v))
  /\ nth_error (hexPoints cx cy size Pointy) 1 = Some (cx, cy + size)
  /\ nth_error (hexPoints cx cy size Flat) 0 = Some (cx + size, cy).
Proof.
  split; [reflexivity|]. split; [|split; [|split]].
  - intros v Hin. unfold hexPoints in Hin. apply in_map_iff in Hin as (i & <- & _).
    apply hexVertex_on_circle.
  - intros i v Hi Hv. unfold hexPoints in *.
    destruct i as [|[|[|i]]]; try lia; cbn in Hv |- *; injection Hv as <-;
      f_equal.
    + exact (hexVertex_opposite cx cy size o 0).
    + exact (hexVertex_opposite cx cy size o 1).
    + exact (hexVertex_opposite cx cy size o 2).
  - cbn. unfold hexVertex. cbn [INR].
    replace ((30 + 60 * 1) * PI / 180) with (PI / 2) by field.
    rewrite cos_PI2, sin_PI2. do 2 f_equal; ring.
  - cbn. unfold hexVertex. cbn [INR].
    replace ((0 + 60 * 0) * PI / 180) with 0 by field.
    rewrite cos_0, sin_0. do 2 f_equal; ring.
Qed.

Lemma hexPoints_regular_witness :
  nth_error (hexPoints 0 0 80 Pointy) (0 + 3)
  = Some (2 * 0 - fst (hexVertex 0 0 80 Pointy 0), 2 * 0 - snd (hexVertex 0 0 80 Pointy 0)).
Proof.
  apply (hexPoints_regular 0 0 80 Pointy); [lia | reflexivity].
Defined.

Lemma maxOf_ge_init (xs : list R) (x : R) : x <= maxOf x xs.
Proof.
  unfold maxOf. revert x. induction xs as [|y xs IH]; intros x; cbn; [lra|].
  specialize (IH (Rmax x y)). pose proof (Rmax_l x y). lra.
Qed.

Lemma maxOf_ge_elem (xs : list R) (x y : R) : In y xs -> y <= maxOf x xs.
Proof.
  unfold maxOf. revert x. induction xs as [|z xs IH]; intros x; cbn; [intros []|].
  intros [->|Hin]; [|now apply IH].
  pose proof (maxOf_ge_init xs (Rmax x y)) as H. unfold maxOf in H.
  pose proof (Rmax_r x y). lra.
Qed.

(** The viewport reaches two tile sizes beyond the right-most and the
    lowest centre: every tile's centre has [x + 2 * sizePx <= w] and
    [y + 2 * sizePx <= h]; and [bounds] is undefined exactly for a loaded
    document without tiles. *)
Theorem bounds_cover_centres (L : Layout) (d : MapData.t) :
  (bounds L (Some d) = None <-> MapData.map d = [])
  /\ (forall w h hex,
        bounds L (Some d) = Some (w, h) -> In hex (MapData.map d) ->
        fst (centre L d hex) + sizePx d * 2 <= w
        /\ snd (centre L d hex) + sizePx d * 2 <= h).
Proof.
  unfold bounds. destruct (MapData.map d) as [|h0 t]; cbn [List.map].
  - split; [tauto|]. intros w h hex [=].
  - split; [split; discriminate|].
    intros w h hex [= <- <-] Hin.
    assert (Hx : fst (centre L d hex)
                 <= maxOf (fst (centre L d h0)) (List.map fst (List.map (centre L d) t))).
    { destruct Hin as [<-|Hin]; [apply maxOf_ge_init|].
      apply maxOf_ge_elem. apply in_map. now apply in_map. }
    assert (Hy : snd (centre L d hex)
                 <= maxOf (snd (centre L d h0)) (List.map snd (List.map (centre L d) t))).
    { destruct Hin as [<-|Hin]; [apply maxOf_ge_init|].
      apply maxOf_ge_elem. apply in_map. now apply in_map. }
    lra.
Qed.

Lemma bounds_cover_centres_witness :
  let L := mkLayout true true true in
  let c0 := centre L Sample.doc Sample.hexA in
  let c1 := centre L Sample.doc Sample.hexB in
  fst c1 + sizePx Sample.doc * 2 <= maxOf (fst c0) [fst c1] + sizePx Sample.doc * 2
  /\ snd c1 + sizePx Sample.doc * 2 <= maxOf (snd c0) [snd c1] + sizePx Sample.doc * 2.
Proof.
  cbv zeta.
  apply (proj2 (bounds_cover_centres (mkLayout true true true) Sample.doc));
    [reflexivity | right; left; reflexivity].
Defined.

End OutlineFacts.

(* ====================================================================== *)
(** * Properties of the shading *)
(* ====================================================================== *)

Section ShadingFacts.
Import Render.

Lemma fold_min_le_init (l : list Z) (a : Z) : fold_left Z.min l a <= a.
Proof.
  revert a. induction l as [|x l IH]; intros a; cbn; [lia|].
  specialize (IH (Z.min a x)). lia.
Qed.

Lemma fold_min_le_elem (l : list Z) (a x : Z) : In x l -> fold_left Z.min l a <= x.
Proof.
  revert a. induction l as [|y l IH]; intros a; cbn; [intros []|].
  intros [->|Hin]; [|now apply IH].
  pose proof (fold_min_le_init l (Z.min a x)). lia.
Qed.

(** [[minH, maxH]] brackets the tier of every tile of the document. *)
Theorem tierRange_brackets_every_tile (d : MapData.t) (h : Hex.t) :
  In h (MapData.map d) ->
  fst (tierRange (Some d)) <= Hex.tier h <= snd (tierRange (Some d)).
Proof.
  intros Hin. unfold tierRange. destruct (MapData.map d) as [|h0 t]; [destruct Hin|].
  cbn [List.map fst snd]. destruct Hin as [<-|Hin].
  - split; [apply fold_min_le_init | apply fold_max_ge_init].
  - split; [apply fold_min_le_elem | apply fold_max_ge_elem]; now apply in_map.
Qed.

Lemma tierRange_brackets_every_tile_witness :
  fst (tierRange (Some Sample.doc)) <= Hex.tier Sample.hexB
  <= snd (tierRange (Some Sample.doc)).
Proof.
  apply (tierRange_brackets_every_tile Sample.doc Sample.hexB). right; left; reflexivity.
Defined.












End ShadingFacts.

(* ====================================================================== *)
(** * Further properties of markers and selection *)
(* ====================================================================== *)

Section MarkerQueryFacts.
Import Editor Render.

Lemma isSpawnPoint_In (s : State) (q r : Z) :
  isSpawnPoint s q r = true <-> In (SpawnPoint.mk q r) (spawnPoints s).
Proof.
  unfold isSpawnPoint. rewrite existsb_exists. split.
  - intros (sp & Hin & Hat). apply atCoord_true in Hat. now subst.
  - intros Hin. exists (SpawnPoint.mk q r). split; [exact Hin | now apply atCoord_true].
Qed.

Lemma coord_eqb (q r q' r' : Z) :
  (q' =? q) && (r' =? r) = true <-> SpawnPoint.mk q' r' = SpawnPoint.mk q r.
Proof.
  rewrite andb_true_iff, !Z.eqb_eq. split; [intros [-> ->]; reflexivity|].
  intros [= -> ->]. split; reflexivity.
Qed.

(** The spawn list behaves as a set of coordinates: one toggle flips the
    marker at its coordinate, also when imported data listed it several
    times, and leaves the marker of every other coordinate as it was; and
    a list without repetitions stays without repetitions. *)
Theorem toggleSpawnPoint_flips_one (s : State) (q r : Z) :
  (forall q' r',
      isSpawnPoint (toggleSpawnPoint s q r) q' r'
      = if (q' =? q) && (r' =? r) then negb (isSpawnPoint s q r)
        else isSpawnPoint s q' r')
  /\ (List.NoDup (spawnPoints s) -> List.NoDup (spawnPoints (toggleSpawnPoint s q r))).
Proof.
  split.
  - intros q' r'. apply eq_true_iff_eq.
    rewrite isSpawnPoint_In, toggleSpawnPoint_In.
    destruct ((q' =? q) && (r' =? r)) eqn:E.
    + apply coord_eqb in E. rewrite E, negb_true_iff, <- not_true_iff_false, isSpawnPoint_In.
      tauto.
    + assert (Hne : SpawnPoint.mk q' r' <> SpawnPoint.mk q r).
      { intros H. apply coord_eqb in H. congruence. }
      rewrite isSpawnPoint_In. tauto.
  - intros Hnd. unfold toggleSpawnPoint. cbn.
    destruct (List.find (atCoord q r) (spawnPoints s)) eqn:E.
    + now apply List.NoDup_filter.
    + apply find_atCoord_none in E.
      apply List.NoDup_app; [exact Hnd | repeat constructor; intros [] |].
      intros x Hx [<-|[]]. contradiction.
Qed.

Lemma toggleSpawnPoint_flips_one_witness :
  List.NoDup (spawnPoints (toggleSpawnPoint (toggleSpawnPoint Sample.loaded 1 0) 0 0)).
Proof.
  apply (toggleSpawnPoint_flips_one (toggleSpawnPoint Sample.loaded 1 0) 0 0).
  apply (toggleSpawnPoint_flips_one Sample.loaded 1 0).
  constructor.
Defined.

(** After [setWorldTreeAt s q r] the goal is at [(q, r)] exactly when it
    was not there before, and it is nowhere else: no second goal can
    appear. *)
Theorem setWorldTreeAt_single_goal (s : State) (q r q' r' : Z) :
  isWorldTree (setWorldTreeAt s q r) q' r'
  = ((q' =? q) && (r' =? r)) && negb (isWorldTree s q r).
Proof.
  assert (Hself : atCoord q r (SpawnPoint.mk q r) = true) by now apply atCoord_true.
  unfold isWorldTree, setWorldTreeAt.
  destruct (worldTree s) as [wt|].
  - destruct (atCoord q r wt); cbn.
    + now rewrite andb_false_r.
    + rewrite andb_true_r. unfold atCoord. cbn. now rewrite (Z.eqb_sym q q'), (Z.eqb_sym r r').
  - cbn. rewrite andb_true_r. unfold atCoord. cbn. now rewrite (Z.eqb_sym q q'), (Z.eqb_sym r r').
Qed.

End MarkerQueryFacts.

Section ClickFacts.
Import Editor.

(** A tile click is routed by the edit mode and touches nothing else: it
    never changes the document or the edit mode; in spawn and goal mode it
    leaves the selection alone and changes only its own marker; in terrain
    mode it leaves both markers alone. *)
Theorem handleHexClick_routes_by_mode (s : State) (hex : Hex.t) (e : MouseEvent) :
  let s' := handleHexClick s hex e in
  data s' = data s /\ editMode s' = editMode s
  /\ (editMode s = Spawn ->
        s' = toggleSpawnPoint s (Hex.q hex) (Hex.r hex)
        /\ worldTree s' = worldTree s
        /\ selected s' = selected s /\ selectedMultiple s' = selectedMultiple s)
  /\ (editMode s = Goal ->
        s' = setWorldTreeAt s (Hex.q hex) (Hex.r hex)
        /\ spawnPoints s' = spawnPoints s
        /\ selected s' = selected s /\ selectedMultiple s' = selectedMultiple s)
  /\ (editMode s = Terrain ->
        spawnPoints s' = spawnPoints s /\ worldTree s' = worldTree s
        /\ selected s' = Some hex).
Proof.
  cbv zeta. unfold handleHexClick.
  destruct (editMode s) eqn:Hm.
  - destruct (ctrlKey e || metaKey e); cbn; rewrite ?Hm;
      repeat split; intros; try discriminate; try reflexivity.
  - unfold toggleSpawnPoint. cbn. rewrite Hm.
    repeat split; intros; try discriminate; try reflexivity.
  - unfold setWorldTreeAt.
    destruct (worldTree s) as [wt|]; [destruct (atCoord _ _ wt)|]; cbn; rewrite Hm;
      repeat split; intros; try discriminate; try reflexivity.
Qed.

Lemma handleHexClick_routes_by_mode_witness :
  let s' := handleHexClick (set_editMode Spawn Sample.loaded) Sample.hexA (Sample.at_ true 0) in
  s' = toggleSpawnPoint (set_editMode Spawn Sample.loaded) 0 0
  /\ worldTree s' = None /\ selected s' = None /\ selectedMultiple s' = ∅.
Proof.
  apply (handleHexClick_routes_by_mode (set_editMode Spawn Sample.loaded) Sample.hexA
           (Sample.at_ true 0)).
  reflexivity.
Defined.

(** Two modifier-clicks on the same tile in terrain mode make it the
    focus and give back the multi-set they started from, with one
    exception: when exactly one other tile was selected and the
    multi-set was empty, that tile stays behind in the multi-set. *)
Theorem modifier_click_twice (s : State) (hex : Hex.t) (e1 e2 : MouseEvent) :
  editMode s = Terrain ->
  ctrlKey e1 || metaKey e1 = true -> ctrlKey e2 || metaKey e2 = true ->
  let s2 := handleHexClick (handleHexClick s hex e1) hex e2 in
  selected s2 = Some hex
  /\ selectedMultiple s2
     = match selected s with
       | Some other =>
           if (size (selectedMultiple s) =? 0)%nat
              && negb (String.eqb (Hex.id other) (Hex.id hex))
           then {[Hex.id other]} else selectedMultiple s
       | None => selectedMultiple s
       end.
Proof.
  intros Hm H1 H2. cbv zeta.
  destruct (handleHexClick_modifier s hex e1 Hm H1) as (Hs1 & Hm1 & Hset1).
  destruct (handleHexClick_modifier _ hex e2 Hm1 H2) as (Hs2 & _ & Hset2).
  split; [exact Hs2|].
  rewrite Hset2, Hs1, String.eqb_refl, andb_false_r, Hset1. cbv zeta.
  set (seeded := match selected s with
                 | Some sel =>
                     if (size (selectedMultiple s) =? 0)%nat
                        && negb (String.eqb (Hex.id sel) (Hex.id hex))
                     then {[Hex.id sel]} ∪ selectedMultiple s else selectedMultiple s
                 | None => selectedMultiple s
                 end).
  assert (Htoggle :
    (let once := if bool_decide (Hex.id hex ∈ seeded)
                 then seeded ∖ {[Hex.id hex]} else {[Hex.id hex]} ∪ seeded in
     if bool_decide (Hex.id hex ∈ once) then once ∖ {[Hex.id hex]}
     else {[Hex.id hex]} ∪ once) = seeded).
  { cbv zeta. destruct (decide (Hex.id hex ∈ seeded)) as [Hin|Hnin].
    - rewrite (bool_decide_eq_true_2 _ Hin).
      rewrite bool_decide_eq_false_2 by set_solver.
      apply set_eq. intros x. rewrite elem_of_union, elem_of_difference, elem_of_singleton.
      destruct (decide (x = Hex.id hex)) as [->|]; tauto.
    - rewrite (bool_decide_eq_false_2 _ Hnin).
      rewrite bool_decide_eq_true_2 by set_solver. set_solver. }
  cbv zeta in Htoggle. rewrite Htoggle. unfold seeded.
  destruct (selected s) as [other|]; [|reflexivity].
  destruct ((size (selectedMultiple s) =? 0)%nat) eqn:Hsz; cbn [andb]; [|reflexivity].
  destruct (negb _); [|reflexivity].
  apply Nat.eqb_eq, size_empty_iff in Hsz. set_solver.
Qed.

Lemma modifier_click_twice_witness :
  let s2 := handleHexClick
              (handleHexClick (set_selected (Some Sample.hexA) Sample.loaded)
                 Sample.hexB (Sample.at_ true 1))
              Sample.hexB (Sample.at_ true 1) in
  selected s2 = Some Sample.hexB /\ selectedMultiple s2 = {["hex_0_0"%string]}.
Proof.
  apply (modifier_click_twice (set_selected (Some Sample.hexA) Sample.loaded)
           Sample.hexB (Sample.at_ true 1) (Sample.at_ true 1)); reflexivity.
Defined.

End ClickFacts.

(* ====================================================================== *)
(** * Further properties of field edits *)
(* ====================================================================== *)

Section UpdateFacts.
Import Editor.

Lemma applyUpdate_keeps_identity (u : HexUpdate) (h : Hex.t) :
  coordsOf (applyUpdate u h) = coordsOf h.
Proof. destruct u; reflexivity. Qed.

Lemma map_if_keeps_identity (u : HexUpdate) (p : Hex.t -> bool) (m : list Hex.t) :
  List.map coordsOf (List.map (fun h => if p h then applyUpdate u h else h) m)
  = List.map coordsOf m.
Proof.
  rewrite List.map_map. apply List.map_ext. intros h.
  destruct (p h); [apply applyUpdate_keeps_identity | reflexivity].
Qed.

(** A field edit is an edit in place: whatever is selected, [updateHex]
    keeps the number and order of the tiles and the [q], [r] and [id] of
    each, keeps the rest of the document, and leaves untouched every tile
    whose id is neither in the multi-set nor the id of the focus tile;
    with nothing selected it changes nothing at all. *)
Theorem updateHex_edits_in_place (u : HexUpdate) (s : State) :
  option_map frame (data (updateHex u s)) = option_map frame (data s)
  /\ (forall d d' i h,
        data s = Some d -> data (updateHex u s) = Some d' ->
        MapData.map d !! i = Some h ->
        Hex.id h ∉ selectedMultiple s ->
        (forall sel, selected s = Some sel -> Hex.id sel <> Hex.id h) ->
        MapData.map d' !! i = Some h)
  /\ (selected s = None -> selectedMultiple s = ∅ -> updateHex u s = s).
Proof.
  split; [|split].
  - unfold updateHex. destruct (data s) as [d|] eqn:Hd; [|now rewrite Hd].
    destruct (0 <? size (selectedMultiple s))%nat.
    + destruct (selected s) as [sel|]; [destruct (bool_decide _)|]; cbn;
        unfold frame; cbn; now rewrite map_if_keeps_identity.
    + destruct (selected s) as [sel|]; cbn; [|now rewrite Hd].
      unfold frame; cbn; now rewrite map_if_keeps_identity.
  - intros d d' i h Hd Hd' Hi Hnin Hsel. unfold updateHex in Hd'. rewrite Hd in Hd'.
    destruct (0 <? size (selectedMultiple s))%nat.
    + assert (E : d' = withMap d (List.map (fun mapHex =>
                     if bool_decide (Hex.id mapHex ∈ selectedMultiple s)
                     then applyUpdate u mapHex else mapHex) (MapData.map d))).
      { destruct (selected s) as [sel|]; [destruct (bool_decide _)|]; cbn in Hd'; congruence. }
      subst d'. cbn. rewrite list_lookup_fmap, Hi. cbn.
      now rewrite bool_decide_eq_false_2.
    + destruct (selected s) as [sel|]; cbn in Hd'.
      * injection Hd' as <-. cbn. rewrite list_lookup_fmap, Hi. cbn.
        specialize (Hsel sel eq_refl).
        assert (E : String.eqb (Hex.id h) (Hex.id sel) = false)
          by (apply String.eqb_neq; congruence).
        now rewrite E.
      * rewrite Hd in Hd'. congruence.
  - intros Hsel Hmulti. unfold updateHex. rewrite Hsel, Hmulti, size_empty. cbn.
    now destruct (data s).
Qed.

Lemma updateHex_edits_in_place_witness :
  MapData.map (withMap Sample.doc [Sample.tile 0 0 "hex_0_0" "grass" 3; Sample.hexB])
    !! 1%nat = Some Sample.hexB.
Proof.
  apply (proj1 (proj2 (updateHex_edits_in_place (SetTier 3)
                         (set_selected (Some Sample.hexA) Sample.loaded)))
           Sample.doc _ 1%nat Sample.hexB).
  - reflexivity.
  - reflexivity.
  - reflexivity.
  - apply not_elem_of_empty.
  - intros sel [= <-]. discriminate.
Defined.

(** From a focus tile whose tier is within [0, 3], the tier widget's two
    buttons write only tiers within [0, 3]: afterwards every tile is
    either untouched or in range. *)
Theorem tier_buttons_keep_range (s : State) (sel : Hex.t) (d' : MapData.t) (h' : Hex.t) :
  selected s = Some sel -> 0 <= Hex.tier sel <= 3 ->
  data (tierMinusClick s) = Some d' \/ data (tierPlusClick s) = Some d' ->
  In h' (MapData.map d') ->
  (exists d, data s = Some d /\ In h' (MapData.map d)) \/ 0 <= Hex.tier h' <= 3.
Proof.
  intros Hsel Hr Hd Hin.
  unfold tierMinusClick, tierPlusClick, withTierWidget in Hd. rewrite Hsel in Hd.
  destruct (isTerrain (editMode s)).
  - destruct Hd as [Hd|Hd];
      (destruct (updateHex_tier _ _ _ _ Hd Hin) as [? | ->]; [left; assumption | right; lia]).
  - destruct Hd as [Hd|Hd]; eauto.
Qed.

Lemma tier_buttons_keep_range_witness :
  (exists d, data (set_selected (Some Sample.hexA) Sample.loaded) = Some d
             /\ In (Sample.tile 0 0 "hex_0_0" "grass" 2) (MapData.map d))
  \/ 0 <= Hex.tier (Sample.tile 0 0 "hex_0_0" "grass" 2) <= 3.
Proof.
  eapply (tier_buttons_keep_range (set_selected (Some Sample.hexA) Sample.loaded)
            Sample.hexA).
  - reflexivity.
  - cbn. lia.
  - right. reflexivity.
  - left. reflexivity.
Defined.

End UpdateFacts.

(* ====================================================================== *)
(** * Further properties of pointer gestures *)
(* ====================================================================== *)

Section GestureFacts.
Import Editor.

(** What a paint attempt leaves alone. *)
Lemma paint_frame (s : State) (hex : Hex.t) :
  let s' := paintHexWithBrush s hex in
  option_map frame (data s') = option_map frame (data s)
  /\ selected s' = selected s /\ selectedMultiple s' = selectedMultiple s
  /\ spawnPoints s' = spawnPoints s /\ worldTree s' = worldTree s
  /\ editMode s' = editMode s /\ brushEnabled s' = brushEnabled s
  /\ brushTerrain s' = brushTerrain s /\ brushTier s' = brushTier s
  /\ offset s' = offset s /\ start s' = start s.
Proof.
  cbv zeta. destruct (paint_cases s hex) as [->|(d & Hd & Hnin & Hm)]; [repeat split|].
  rewrite (paint_writes s d hex Hd Hnin Hm). cbn. rewrite Hd. cbn.
  repeat split. unfold frame. cbn.
  rewrite List.map_map.
  rewrite (List.map_ext _ coordsOf); [reflexivity|].
  intros h. now destruct (String.eqb _ _).
Qed.

Lemma paintUnderPointer_frame (s : State) (e : MouseEvent) :
  let s' := paintUnderPointer s e in
  option_map frame (data s') = option_map frame (data s)
  /\ selected s' = selected s /\ selectedMultiple s' = selectedMultiple s
  /\ spawnPoints s' = spawnPoints s /\ worldTree s' = worldTree s
  /\ editMode s' = editMode s /\ brushEnabled s' = brushEnabled s
  /\ brushTerrain s' = brushTerrain s /\ brushTier s' = brushTier s
  /\ offset s' = offset s /\ start s' = start s.
Proof.
  cbv zeta. unfold paintUnderPointer.
  destruct (hexUnderPointer s e); [apply paint_frame | repeat split].
Qed.

(** What one pointer event leaves alone. *)
Lemma handle_frame (s : State) (ev : PointerEvent) :
  let s' := handle s ev in
  option_map frame (data s') = option_map frame (data s)
  /\ spawnPoints s' = spawnPoints s /\ worldTree s' = worldTree s
  /\ editMode s' = editMode s /\ brushEnabled s' = brushEnabled s
  /\ brushTerrain s' = brushTerrain s /\ brushTier s' = brushTier s
  /\ selectedMultiple s ⊆ selectedMultiple s'.
Proof.
  cbv zeta. destruct ev as [e|e|]; cbn [handle].
  - unfold onMouseDown. destruct (negb _); [repeat split; set_solver|].
    destruct (_ && _).
    + match goal with |- context [paintUnderPointer ?t e] =>
        destruct (paintUnderPointer_frame t e)
          as (H1 & _ & H3 & H4 & H5 & H6 & H7 & H8 & H9 & _) end.
      rewrite H1, H3, H4, H5, H6, H7, H8, H9. repeat split; set_solver.
    + destruct (_ && _); repeat split; set_solver.
  - unfold onMouseMove. destruct (_ && _).
    + destruct (paintUnderPointer_frame s e)
        as (H1 & _ & H3 & H4 & H5 & H6 & H7 & H8 & H9 & _).
      rewrite H1, H3, H4, H5, H6, H7, H8, H9. repeat split; set_solver.
    + destruct (_ && _).
      * unfold dragSelectUnderPointer. destruct (hexUnderPointer s e);
          [|repeat split; set_solver].
        cbn. repeat split. destruct (bool_decide _); set_solver.
      * destruct (negb _); repeat split; set_solver.
  - repeat split; set_solver.
Qed.

(** No sequence of pointer events adds, removes, reorders or renames a
    tile, or touches the markers, the edit mode or the brush settings: the
    document keeps its size, orientation and the [q], [r] and [id] of every
    tile in order.  The multi-set only grows. *)
Theorem pointer_events_keep_frame (s : State) (evs : list PointerEvent) :
  let s' := run s evs in
  option_map frame (data s') = option_map frame (data s)
  /\ spawnPoints s' = spawnPoints s /\ worldTree s' = worldTree s
  /\ editMode s' = editMode s /\ brushEnabled s' = brushEnabled s
  /\ brushTerrain s' = brushTerrain s /\ brushTier s' = brushTier s
  /\ selectedMultiple s ⊆ selectedMultiple s'.
Proof.
  cbv zeta. revert s. induction evs as [|ev evs IH]; intros s; cbn [run fold_left].
  - repeat split; set_solver.
  - destruct (handle_frame s ev) as (H1 & H2 & H3 & H4 & H5 & H6 & H7 & H8).
    destruct (IH (handle s ev)) as (I1 & I2 & I3 & I4 & I5 & I6 & I7 & I8).
    unfold run in *. rewrite I1, I2, I3, I4, I5, I6, I7, H1, H2, H3, H4, H5, H6, H7.
    repeat split. set_solver.
Qed.

Lemma pointer_events_keep_frame_aux (s : State) (evs : list PointerEvent) :
  brushEnabled (run s evs) = brushEnabled s /\ editMode (run s evs) = editMode s.
Proof.
  revert s. induction evs as [|ev evs IH]; intros s; cbn [run fold_left]; [auto|].
  destruct (handle_frame s ev) as (_ & _ & _ & H4 & H5 & _).
  destruct (IH (handle s ev)) as (I1 & I2). unfold run in *.
  rewrite I1, I2, H4, H5. auto.
Qed.

(** With the brush switched off, no sequence of pointer events changes
    the document: tiles are only ever rewritten by an enabled brush. *)
Theorem brush_off_keeps_document (s : State) (evs : list PointerEvent) :
  brushEnabled s = false ->
  data (run s evs) = data s /\ paintLog (run s evs) = paintLog s.
Proof.
  revert s. induction evs as [|ev evs IH]; intros s Hoff; cbn [run fold_left];
    [split; reflexivity|].
  assert (Hstep : data (handle s ev) = data s /\ paintLog (handle s ev) = paintLog s
                  /\ brushEnabled (handle s ev) = false).
  { destruct ev as [e|e|]; cbn [handle].
    - unfold onMouseDown. rewrite Hoff. cbn [andb].
      destruct (negb _); [auto|]. destruct (_ && _); auto.
    - unfold onMouseMove. rewrite Hoff, andb_false_r.
      destruct (_ && _).
      + unfold dragSelectUnderPointer. destruct (hexUnderPointer s e); auto.
      + destruct (negb _); auto.
    - auto. }
  destruct Hstep as (Hd & Hl & Hoff').
  destruct (IH _ Hoff') as (Id & Il). unfold run in *. rewrite Id, Il. auto.
Qed.

Lemma brush_off_keeps_document_witness :
  data (run Sample.loaded
          [PointerDown (Sample.at_ false 0); PointerMove (Sample.at_ false 1); PointerUp])
  = data Sample.loaded
  /\ paintLog (run Sample.loaded
          [PointerDown (Sample.at_ false 0); PointerMove (Sample.at_ false 1); PointerUp])
     = paintLog Sample.loaded.
Proof. apply (brush_off_keeps_document Sample.loaded). reflexivity. Defined.

(** *** Panning *)

Lemma pan_moves (moves : list MouseEvent) (s : State) (e : MouseEvent) :
  isPanning s = true -> isBrushPainting s = false -> isDragSelecting s = false ->
  let s' := fold_left onMouseMove (moves ++ [e]) s in
  offset s' = (clientX e - fst (start s), clientY e - snd (start s))
  /\ data s' = data s /\ selected s' = selected s
  /\ selectedMultiple s' = selectedMultiple s.
Proof.
  cbv zeta. revert s. induction moves as [|m moves IH]; intros s Hp Hb Hd.
  - cbn. unfold onMouseMove. rewrite Hp, Hb, Hd. cbn. repeat split.
  - cbn [app fold_left].
    assert (E : onMouseMove s m = panTo s m).
    { unfold onMouseMove. now rewrite Hp, Hb, Hd. }
    rewrite E. destruct (IH (panTo s m)) as (H1 & H2 & H3 & H4); [assumption..|].
    rewrite H1, H2, H3, H4. repeat split.
Qed.

(** A pan stroke (left button, brush not painting, no modifier-drag)
    moves the view by exactly the pointer's displacement between
    pointer-down and the latest move, whatever path the pointer took, and
    changes neither the document nor the selection. *)
Theorem pan_follows_pointer
    (s : State) (down : MouseEvent) (moves : list MouseEvent) (e : MouseEvent) :
  button down = 0 ->
  brushEnabled s && isTerrain (editMode s) = false ->
  (ctrlKey down || metaKey down) && isTerrain (editMode s) = false ->
  let s' := strokeMoves s down (moves ++ [e]) in
  offset s' = (fst (offset s) + (clientX e - clientX down),
               snd (offset s) + (clientY e - clientY down))
  /\ data s' = data s /\ selected s' = selected s
  /\ selectedMultiple s' = selectedMultiple s.
Proof.
  intros Hb Hbrush Hdrag. cbv zeta. unfold strokeMoves.
  assert (E : onMouseDown s down
              = set_start (clientX down - fst (offset s), clientY down - snd (offset s))
                  (set_isBrushPainting false
                     (set_isDragSelecting false (set_isPanning true s)))).
  { unfold onMouseDown. now rewrite Hb, Hbrush, Hdrag. }
  rewrite E.
  match goal with |- context [fold_left onMouseMove _ ?t] =>
    destruct (pan_moves moves t e) as (H1 & H2 & H3 & H4); [reflexivity..|] end.
  rewrite H1, H2, H3, H4. cbn. repeat split. f_equal; lia.
Qed.

Lemma pan_follows_pointer_witness :
  offset (strokeMoves Sample.loaded (mkMouse 0 false false 10 20 None)
            ([mkMouse 0 false false 50 60 None] ++ [mkMouse 0 false false 13 24 None]))
  = (fst (offset Sample.loaded) + (13 - 10), snd (offset Sample.loaded) + (24 - 20)).
Proof.
  apply (pan_follows_pointer Sample.loaded (mkMouse 0 false false 10 20 None)
           [mkMouse 0 false false 50 60 None] (mkMouse 0 false false 13 24 None));
    reflexivity.
Defined.

End GestureFacts.

Section RepeatedStrokeFacts.
Import Editor.

Lemma paintUnderPointer_brushes_target (s : State) (e : MouseEvent) :
  paintedMatchBrush s -> pointerOnBrushed (paintUnderPointer s e) e.
Proof.
  intros Hinv. unfold paintUnderPointer.
  destruct (hexUnderPointer s e) as [hex|] eqn:Hu; [|intros h; congruence].
  destruct (hexUnderPointer_In s e hex Hu) as (d & Hd & Hin).
  destruct (decide (Hex.id hex ∈ paintedInStroke s)) as [Hp|Hnp].
  { rewrite (paint_skips_painted s hex Hp). intros h Hh.
    assert (h = hex) by congruence. subst h. exact (Hinv d hex Hd Hin Hp). }
  destruct (matchesBrush s hex) eqn:Hm.
  { rewrite (paint_skips_matching s hex Hm). intros h Hh. congruence. }
  rewrite (paint_writes s d hex Hd Hnp Hm). intros h Hh.
  rewrite (matchesBrush_same_brush s) by reflexivity.
  unfold hexUnderPointer in Hu, Hh. rewrite Hd in Hu. cbn in Hh.
  destruct (target e) as [i|]; [|discriminate].
  rewrite list_lookup_fmap, Hu in Hh. cbn in Hh. rewrite String.eqb_refl in Hh.
  injection Hh as <-. apply matchesBrush_brushed.
Qed.

Lemma paint_keeps_brushed (s : State) (hex : Hex.t) (e : MouseEvent) :
  pointerOnBrushed s e -> pointerOnBrushed (paintHexWithBrush s hex) e.
Proof.
  intros Hon. destruct (paint_cases s hex) as [->|(d & Hd & Hnin & Hm)]; [assumption|].
  rewrite (paint_writes s d hex Hd Hnin Hm). intros h Hh.
  rewrite (matchesBrush_same_brush s) by reflexivity.
  unfold pointerOnBrushed, hexUnderPointer in Hon. rewrite Hd in Hon.
  unfold hexUnderPointer in Hh. cbn in Hh.
  destruct (target e) as [i|]; [|discriminate].
  rewrite list_lookup_fmap in Hh.
  destruct (MapData.map d !! i) as [h0|]; [|discriminate]. cbn in Hh.
  injection Hh as <-.
  destruct (String.eqb _ _); [apply matchesBrush_brushed | now apply Hon].
Qed.

Lemma onMouseMove_keeps_brushed (s : State) (m e : MouseEvent) :
  pointerOnBrushed s e -> pointerOnBrushed (onMouseMove s m) e.
Proof.
  intros Hon. unfold onMouseMove.
  destruct (_ && _).
  { unfold paintUnderPointer. destruct (hexUnderPointer s m);
      [now apply paint_keeps_brushed | assumption]. }
  destruct (_ && _).
  - unfold dragSelectUnderPointer. destruct (hexUnderPointer s m); exact Hon.
  - destruct (negb _); exact Hon.
Qed.

Lemma moves_keep_brushed (moves : list MouseEvent) (s : State) (e : MouseEvent) :
  pointerOnBrushed s e -> pointerOnBrushed (fold_left onMouseMove moves s) e.
Proof.
  revert s. induction moves as [|m moves IH]; intros s H; cbn; [assumption|].
  apply IH. now apply onMouseMove_keeps_brushed.
Qed.

Lemma brush_moves_brush_all (moves : list MouseEvent) (s : State) :
  isBrushPainting s = true -> brushEnabled s = true -> paintedMatchBrush s ->
  forall e, In e moves -> pointerOnBrushed (fold_left onMouseMove moves s) e.
Proof.
  revert s. induction moves as [|m moves IH]; intros s Hb He Hinv e; [intros []|].
  assert (E : onMouseMove s m = paintUnderPointer s m).
  { unfold onMouseMove. now rewrite Hb, He. }
  cbn [fold_left]. intros [<-|Hin].
  - apply moves_keep_brushed. rewrite E. now apply paintUnderPointer_brushes_target.
  - apply IH; [| |now apply onMouseMove_paintedMatch|exact Hin].
    + destruct (onMouseMove_flags s m) as (-> & _). exact Hb.
    + pose proof (handle_frame s (PointerMove m)) as H. cbn [handle] in H.
      destruct H as (_ & _ & _ & _ & -> & _). exact He.
Qed.

Lemma brushed_moves_do_nothing (moves : list MouseEvent) (s : State) :
  isBrushPainting s = true -> brushEnabled s = true ->
  (forall e, In e moves -> pointerOnBrushed s e) ->
  fold_left onMouseMove moves s = s.
Proof.
  intros Hb He. induction moves as [|m moves IH]; intros Hall; [reflexivity|].
  cbn [fold_left].
  assert (E : onMouseMove s m = s).
  { unfold onMouseMove. rewrite Hb, He. cbn [andb]. unfold paintUnderPointer.
    destruct (hexUnderPointer s m) as [hex|] eqn:Hu; [|reflexivity].
    apply paint_skips_matching. apply (Hall m); [left; reflexivity | exact Hu]. }
  rewrite E. apply IH. intros e Hin. apply Hall. right. exact Hin.
Qed.

(** Repeating a brush stroke changes nothing: after one stroke (left
    button, brush enabled, terrain mode), the same pointer-down and moves
    once more leave the whole editor state as the first stroke left it. *)
Theorem brush_stroke_idempotent
    (s : State) (down : MouseEvent) (moves : list MouseEvent) :
  button down = 0 -> brushEnabled s = true -> editMode s = Terrain ->
  stroke (stroke s down moves) down moves = stroke s down moves.
Proof.
  intros Hb He Hm.
  set (s0 := onMouseDown s down).
  assert (Hs0 : s0 = paintUnderPointer
                       (set_paintedInStroke ∅
                          (set_isDragSelecting false
                             (set_isPanning false (set_isBrushPainting true s)))) down).
  { unfold s0, onMouseDown. now rewrite Hb, He, Hm. }
  assert (Hflag0 : isBrushPainting s0 = true).
  { unfold s0. destruct (onMouseDown_flags s down Hb) as (-> & _). now rewrite He, Hm. }
  assert (Hen0 : brushEnabled s0 = true).
  { pose proof (handle_frame s (PointerDown down)) as H. cbn [handle] in H.
    destruct H as (_ & _ & _ & _ & H & _). unfold s0. now rewrite H. }
  assert (Hinv0 : paintedMatchBrush s0) by now apply brush_down_paintedMatch.
  assert (Hdown0 : pointerOnBrushed s0 down).
  { rewrite Hs0. apply paintUnderPointer_brushes_target.
    intros d h _ _ Hrec. cbn in Hrec. set_solver. }
  set (s' := strokeMoves s down moves).
  assert (Hall : forall e, In e (down :: moves) -> pointerOnBrushed s' e).
  { intros e [<-|Hin].
    - now apply moves_keep_brushed.
    - now apply brush_moves_brush_all. }
  destruct (pointer_events_keep_frame_aux s (PointerDown down :: List.map PointerMove moves))
    as (Hen' & Hm').
  assert (Hrun : run s (PointerDown down :: List.map PointerMove moves) = s').
  { unfold run, s', strokeMoves. cbn [fold_left handle].
    generalize (onMouseDown s down). clear. induction moves as [|m ms IH]; intros t; cbn;
      [reflexivity | apply IH]. }
  rewrite Hrun in Hen', Hm'. rewrite He in Hen'. rewrite Hm in Hm'.
  set (s1 := onMouseUp s').
  change (stroke s down moves) with s1.
  unfold stroke, strokeMoves.
  set (t := set_paintedInStroke ∅
              (set_isDragSelecting false
                 (set_isPanning false (set_isBrushPainting true s1)))).
  assert (Hdown1 : onMouseDown s1 down = t).
  { unfold onMouseDown. rewrite Hb. cbn [Z.eqb negb].
    change (brushEnabled s1) with (brushEnabled s').
    change (editMode s1) with (editMode s').
    rewrite Hen', Hm'. cbn [andb isTerrain]. fold t.
    unfold paintUnderPointer.
    destruct (hexUnderPointer t down) as [hex|] eqn:Hu; [|reflexivity].
    apply paint_skips_matching. apply (Hall down); [left; reflexivity | exact Hu]. }
  rewrite Hdown1.
  rewrite (brushed_moves_do_nothing moves t); [reflexivity | reflexivity | exact Hen' |].
  intros e Hin hex Hu. apply (Hall e); [right; exact Hin | exact Hu].
Qed.

Lemma brush_stroke_idempotent_witness :
  stroke (stroke Sample.brushing (Sample.at_ false 0) [Sample.at_ false 1; Sample.at_ false 0])
         (Sample.at_ false 0) [Sample.at_ false 1; Sample.at_ false 0]
  = stroke Sample.brushing (Sample.at_ false 0) [Sample.at_ false 1; Sample.at_ false 0].
Proof.
  apply (brush_stroke_idempotent Sample.brushing (Sample.at_ false 0)
           [Sample.at_ false 1; Sample.at_ false 0]); reflexivity.
Defined.

End RepeatedStrokeFacts.

(* ====================================================================== *)
(** * Further properties of export and zoom *)
(* ====================================================================== *)

Section ExportFacts.
Import Editor.

(** What the editor exports, it reads back unchanged: importing an
    exported document (through either import path, into any editor state)
    and exporting again yields the very same document; and there is
    nothing to export exactly when no document is loaded. *)
Theorem export_import_export (s s' : State) (fname : string) (out : MapData.t) :
  getExportData s = Some out ->
  getExportData (handleImport s' (Some (mkFile fname (Some out)))) = Some out
  /\ getExportData (handleImportClick s' (Picked (mkFile fname (Some out)))) = Some out
  /\ (forall t, getExportData t = None <-> data t = None).
Proof.
  intros H. unfold getExportData in H.
  destruct (data s) as [d|]; [|discriminate]. injection H as <-.
  split; [|split].
  - cbn. destruct (spawnPoints s) as [|sp l]; reflexivity.
  - cbn. destruct (spawnPoints s) as [|sp l]; reflexivity.
  - intros t. unfold getExportData. destruct (data t); split; congruence.
Qed.

Lemma export_import_export_witness :
  getExportData
    (handleImport initial
       (Some (mkFile "map.json"
                (Some (MapData.mk (8 # 10) Pointy [Sample.hexA; Sample.hexB]
                         (Some [SpawnPoint.mk 1 0]) None)))))
  = Some (MapData.mk (8 # 10) Pointy [Sample.hexA; Sample.hexB]
            (Some [SpawnPoint.mk 1 0]) None).
Proof.
  apply (export_import_export (toggleSpawnPoint Sample.loaded 1 0) initial "map.json").
  reflexivity.
Defined.

End ExportFacts.

Section ZoomFacts.
Import View.
#[local] Open Scope Q_scope.

Lemma applyZoom_in_range (s : Q) (op : ZoomOp) :
  3 # 10 <= s <= 4 -> 3 # 10 <= applyZoom s op <= 4.
Proof.
  intros [Hlo Hhi]. destruct op as [| | |deltaY]; cbn [applyZoom].
  - unfold zoomOut. split; [apply Q.le_max_l|].
    apply Q.max_lub; [discriminate | Lqa.lra].
  - unfold zoomIn. split; [|apply Q.le_min_l].
    apply Q.min_glb; [discriminate | Lqa.lra].
  - unfold resetScale. split; discriminate.
  - unfold wheelZoom. split; [|apply Q.le_min_l].
    apply Q.min_glb; [discriminate | apply Q.le_max_l].
Qed.

(** The zoom factor never leaves [0.3, 4]: starting from 1, any sequence
    of the [-] and [+] buttons, Reset View and wheel steps keeps it in
    that range; within the range [-] never enlarges and [+] never
    shrinks. *)
Theorem zoom_stays_in_range (ops : list ZoomOp) :
  3 # 10 <= fold_left applyZoom ops 1 <= 4
  /\ (forall s, 3 # 10 <= s <= 4 -> zoomOut s <= s /\ s <= zoomIn s).
Proof.
  split.
  - assert (H : forall s, 3 # 10 <= s <= 4 -> 3 # 10 <= fold_left applyZoom ops s <= 4).
    { induction ops as [|op ops IH]; intros s Hs; cbn; [exact Hs|].
      apply IH. now apply applyZoom_in_range. }
    apply H. split; discriminate.
  - intros s [Hlo Hhi]. unfold zoomOut, zoomIn. split.
    + apply Q.max_lub; [exact Hlo | Lqa.lra].
    + apply Q.min_glb; [exact Hhi | Lqa.lra].
Qed.

Lemma zoom_stays_in_range_witness :
  zoomOut (3 # 10) <= 3 # 10 /\ 3 # 10 <= zoomIn (3 # 10).
Proof.
  apply (proj2 (zoom_stays_in_range [])). split; discriminate.
Defined.

End ZoomFacts.

(* ====================================================================== *)
(** * Properties of the stamp brush of the JSX variant *)
(* ====================================================================== *)

Section StampFacts.
Import Jsx.

Lemma unique_id (map : list Tile) (a b : Tile) :
  List.NoDup (List.map id map) -> In a map -> In b map -> id a = id b -> a = b.
Proof.
  induction map as [|h map IH]; intros Hnd Ha Hb Hid; [destruct Ha|].
  cbn in Hnd. inversion Hnd as [|? ? Hnin Hnd']; subst.
  destruct Ha as [<-|Ha], Hb as [<-|Hb].
  - reflexivity.
  - exfalso. apply Hnin. rewrite Hid. now apply in_map.
  - exfalso. apply Hnin. rewrite <- Hid. now apply in_map.
  - now apply IH.
Qed.

(** On a tile list with pairwise distinct ids, stamping a tile of the list
    rewrites that tile only: the tile at every index either is the target
    and becomes the target with the enabled brush fields set, or stays as
    it was; ids, coordinates and the length of the list are kept;
    stamping the result again changes nothing more; and a brush with
    every field disabled leaves the list unchanged. *)
Theorem applyPaintBrush_stamps_one
    (b : PaintBrush) (map : list Tile) (targetHex : Tile) :
  List.NoDup (List.map id map) -> In targetHex map ->
  let map' := applyPaintBrush b map targetHex in
  (forall i h, map !! i = Some h ->
      map' !! i = Some (if Tile_eqb_id h targetHex then updatedHex b targetHex else h)
      /\ (Tile_eqb_id h targetHex = true -> h = targetHex))
  /\ List.map (fun h => (q h, r h, id h)) map' = List.map (fun h => (q h, r h, id h)) map
  /\ applyPaintBrush b map' (updatedHex b targetHex) = map'
  /\ (applyTerrain b = false -> applyHeight b = false -> applyTexture b = false ->
      applyAsset b = false -> map' = map).
Proof.
  intros Hnd Hin. cbv zeta. unfold applyPaintBrush, Tile_eqb_id.
  assert (Hsame : forall h, In h map -> String.eqb (id h) (id targetHex) = true ->
                            h = targetHex).
  { intros h Hh E. apply String.eqb_eq in E. now apply (unique_id map). }
  split; [|split; [|split]].
  - intros i h Hi. rewrite list_lookup_fmap, Hi. cbn. split; [reflexivity|].
    apply Hsame. apply list_elem_of_In. eapply list_elem_of_lookup_2. exact Hi.
  - rewrite List.map_map. apply List.map_ext_in. intros h Hh.
    destruct (String.eqb (id h) (id targetHex)) eqn:E; [|reflexivity].
    now rewrite (Hsame h Hh E).
  - rewrite List.map_map. apply List.map_ext_in. intros h Hh. cbn [id updatedHex].
    destruct (String.eqb (id h) (id targetHex)) eqn:E.
    + cbn [id updatedHex]. rewrite String.eqb_refl.
      unfold updatedHex. cbn.
      destruct (applyAsset b), (applyTerrain b), (applyHeight b), (applyTexture b);
        reflexivity.
    + now rewrite E.
  - intros Ht Hh Hx Ha. rewrite <- (List.map_id map) at 2.
    apply List.map_ext_in. intros h Hh'.
    destruct (String.eqb (id h) (id targetHex)) eqn:E; [|reflexivity].
    rewrite (Hsame h Hh' E). unfold updatedHex. rewrite Ht, Hh, Hx, Ha.
    now destruct targetHex.
Qed.

Lemma applyPaintBrush_stamps_one_witness :
  let a := mkTile 0 0 "hex_0_0" "" "grass" 1 "" in
  let c := mkTile 1 0 "hex_1_0" "" "water" 0 "" in
  let b := mkBrush "sand" 2 "" "" true true false false in
  List.map (fun h => (q h, r h, id h)) (applyPaintBrush b [a; c] c)
  = List.map (fun h => (q h, r h, id h)) [a; c].
Proof.
  cbv zeta.
  apply (applyPaintBrush_stamps_one (mkBrush "sand" 2 "" "" true true false false)
           [mkTile 0 0 "hex_0_0" "" "grass" 1 ""; mkTile 1 0 "hex_1_0" "" "water" 0 ""]
           (mkTile 1 0 "hex_1_0" "" "water" 0 "")).
  - repeat constructor; cbn; intuition discriminate.
  - right; left; reflexivity.
Defined.

End StampFacts.
